(** * front-compiler: the sandboxed build orchestrator of [compiler-service/server.js]

    A shallow embedding of the [/compile] handler and of its helpers
    ([createCompilationContainer], [prepareAngularCode], [waitForCompletion],
    [extractCompiledFiles]), followed by the properties of the design
    document that were checked against it. *)

From Stdlib Require Import NArith ZArith String Ascii List Lia DecimalString.
From Stdlib.Strings Require Import Byte.
From stdpp Require Import base option list gmap.

Open Scope N_scope.

(** ** JavaScript strings

    A JavaScript string is a sequence of UTF-16 code units.  Literals of the
    source are written with [lit]; the double quote and the line feed are
    spliced in as code units. *)

Definition char := N.
Definition jsstring := list N.

Definition lit (s : string) : jsstring :=
  map N_of_ascii (list_ascii_of_string s).

Definition dquote : jsstring := [34].
Definition newline : jsstring := [10].

Definition jsstring_eqb (a b : jsstring) : bool := bool_decide (a = b).

(** [s.startsWith(p)] on code units. *)
Fixpoint starts_with (p s : jsstring) : bool :=
  match p, s with
  | [], _ => true
  | _ :: _, [] => false
  | a :: p', b :: s' => (a =? b) && starts_with p' s'
  end.

(** [s.includes(needle)]. *)
Fixpoint includes (needle s : jsstring) : bool :=
  starts_with needle s ||
  match s with
  | [] => false
  | _ :: s' => includes needle s'
  end.

(** [s.endsWith(p)]. *)
Definition ends_with (p s : jsstring) : bool :=
  starts_with (rev p) (rev s).

(** [s.split(sep)] for a one-character separator: never the empty array. *)
Fixpoint split (sep : char) (s : jsstring) : list jsstring :=
  match s with
  | [] => [[]]
  | c :: s' =>
      if c =? sep then [] :: split sep s'
      else match split sep s' with
           | [] => [[c]]
           | seg :: segs => (c :: seg) :: segs
           end
  end.

(** [arr.pop()] of a freshly built array: its last element. *)
Definition pop (segs : list jsstring) : jsstring := List.last segs [].

(** ** The regular expressions of the source

    Every pattern of [server.js] is a sequence of one-character atoms, some
    under a greedy or a lazy star.  [match_here] is the backtracking matcher
    of ECMAScript on that fragment: it returns the length of the match that
    starts at the head of the input. *)

Inductive atom :=
  | One (p : char -> bool)
  | StarGreedy (p : char -> bool)
  | StarLazy (p : char -> bool).

Definition regex := list atom.

Fixpoint match_here (pat : regex) (s : jsstring) {struct pat} : option nat :=
  match pat with
  | [] => Some 0%nat
  | One p :: pat' =>
      match s with
      | c :: s' => if p c then S <$> match_here pat' s' else None
      | [] => None
      end
  | StarGreedy p :: pat' =>
      (fix greedy (s : jsstring) : option nat :=
         match s with
         | c :: s' =>
             if p c then
               match greedy s' with
               | Some n => Some (S n)
               | None => match_here pat' s
               end
             else match_here pat' s
         | [] => match_here pat' s
         end) s
  | StarLazy p :: pat' =>
      (fix lazy (s : jsstring) : option nat :=
         match match_here pat' s with
         | Some n => Some n
         | None =>
             match s with
             | c :: s' => if p c then S <$> lazy s' else None
             | [] => None
             end
         end) s
  end.

(** [re.exec(s)] without the [g] flag: index and length of the leftmost match. *)
Fixpoint search (pat : regex) (s : jsstring) : option (nat * nat) :=
  match match_here pat s with
  | Some n => Some (0%nat, n)
  | None =>
      match s with
      | [] => None
      | _ :: s' => (fun '(i, n) => (S i, n)) <$> search pat s'
      end
  end.

(** [s.replace(re, repl)] without the [g] flag; [repl] holds no [$]. *)
Definition replace_first (pat : regex) (repl s : jsstring) : jsstring :=
  match search pat s with
  | Some (i, n) => take i s ++ repl ++ drop (i + n) s
  | None => s
  end.

(** [s.replace(re, repl)] with the [g] flag: matches are taken left to right
    and do not overlap; [skip] counts the code units of the current match
    that are still to be dropped. *)
Fixpoint replace_all_from (pat : regex) (repl : jsstring) (skip : nat)
    (s : jsstring) {struct s} : jsstring :=
  match skip with
  | S k =>
      match s with
      | [] => []
      | _ :: s' => replace_all_from pat repl k s'
      end
  | O =>
      match match_here pat s with
      | Some (S n) =>
          repl ++ match s with
                  | [] => []
                  | _ :: s' => replace_all_from pat repl n s'
                  end
      | Some O =>
          repl ++ match s with
                  | [] => []
                  | c :: s' => c :: replace_all_from pat repl 0 s'
                  end
      | None =>
          match s with
          | [] => []
          | c :: s' => c :: replace_all_from pat repl 0 s'
          end
      end
  end.

Definition replace_all (pat : regex) (repl s : jsstring) : jsstring :=
  replace_all_from pat repl 0 s.

(** Character classes: [.] (no line terminator), [\s], [\w] and the class
    of the two quote characters (codes 39 and 34). *)
Definition is_line_terminator (c : char) : bool :=
  (c =? 10) || (c =? 13) || (c =? 8232) || (c =? 8233).

Definition re_dot (c : char) : bool := negb (is_line_terminator c).

Definition re_space (c : char) : bool :=
  (c =? 9) || (c =? 10) || (c =? 11) || (c =? 12) || (c =? 13) || (c =? 32)
  || (c =? 160) || (c =? 5760) || ((8192 <=? c) && (c <=? 8202))
  || (c =? 8232) || (c =? 8233) || (c =? 8239) || (c =? 8287)
  || (c =? 12288) || (c =? 65279).

Definition re_word (c : char) : bool :=
  ((65 <=? c) && (c <=? 90)) || ((97 <=? c) && (c <=? 122))
  || ((48 <=? c) && (c <=? 57)) || (c =? 95).

Definition re_quote (c : char) : bool := (c =? 39) || (c =? 34).

Definition re_lit (s : string) : regex := map (fun c => One (N.eqb c)) (lit s).

(** [selector:], then [\s*], a quote, a lazy [.*?] and a quote. *)
Definition selector_re : regex :=
  re_lit "selector:" ++ [StarGreedy re_space; One re_quote; StarLazy re_dot; One re_quote].
(** [/export class \w+/] *)
Definition class_re : regex :=
  re_lit "export class " ++ [One re_word; StarGreedy re_word].
(** [/@Component\({/] *)
Definition component_re : regex := re_lit "@Component({".
(** [/templateUrl:.*?,/g] *)
Definition templateUrl_re : regex := re_lit "templateUrl:" ++ [StarLazy re_dot; One (N.eqb 44)].
(** [/styleUrls:.*?\],/g] *)
Definition styleUrls_re : regex :=
  re_lit "styleUrls:" ++ [StarLazy re_dot; One (N.eqb 93); One (N.eqb 44)].
(** [/styleUrl:.*?,/g] *)
Definition styleUrl_re : regex := re_lit "styleUrl:" ++ [StarLazy re_dot; One (N.eqb 44)].

(** ** [prepareAngularCode] *)

Definition common_import : jsstring :=
  lit "import { CommonModule } from '@angular/common';" ++ newline.

Definition ensure_import (code : jsstring) : jsstring :=
  if negb (includes (lit "@angular/common") code) then common_import ++ code else code.

Definition force_selector (code : jsstring) : jsstring :=
  replace_first selector_re (lit "selector: 'app-root'") code.

Definition force_class (code : jsstring) : jsstring :=
  replace_first class_re (lit "export class AppComponent") code.

Definition force_standalone (code : jsstring) : jsstring :=
  if negb (includes (lit "standalone:") code) then
    replace_first component_re
      (lit "@Component({" ++ newline ++ lit "  standalone: true,") code
  else code.

Definition strip_templateUrl (code : jsstring) : jsstring := replace_all templateUrl_re [] code.
Definition strip_styleUrls (code : jsstring) : jsstring := replace_all styleUrls_re [] code.
Definition strip_styleUrl (code : jsstring) : jsstring := replace_all styleUrl_re [] code.

Definition prepareAngularCode (userCode : jsstring) : jsstring :=
  let code := userCode in
  let code := ensure_import code in
  let code := force_selector code in
  let code := force_class code in
  let code := force_standalone code in
  let code := strip_templateUrl code in
  let code := strip_styleUrls code in
  let code := strip_styleUrl code in
  code.

(** *** Text that the rewrites leave alone *)

Fixpoint suffixes (s : jsstring) : list jsstring :=
  s :: match s with
       | [] => []
       | _ :: s' => suffixes s'
       end.

(** The pattern matches at no index of [s]. *)
Definition matches_nowhere (pat : regex) (s : jsstring) : bool :=
  forallb (fun t => negb (bool_decide (is_Some (match_here pat t)))) (suffixes s).

(** The leftmost match of the pattern in [s], if there is one, already
    reads [repl]. *)
Definition canonical_first (pat : regex) (repl s : jsstring) : bool :=
  match search pat s with
  | Some (i, n) => jsstring_eqb (take n (drop i s)) repl
  | None => true
  end.

(** Already-normalized source: the import is referenced, the selector and
    the class name (where present) are the canonical ones, the standalone
    flag is declared (or there is no decorator to put it in), and no external
    template or stylesheet field is left. *)
Definition normalized (code : jsstring) : bool :=
  includes (lit "@angular/common") code
  && canonical_first selector_re (lit "selector: 'app-root'") code
  && canonical_first class_re (lit "export class AppComponent") code
  && (includes (lit "standalone:") code || matches_nowhere component_re code)
  && matches_nowhere templateUrl_re code
  && matches_nowhere styleUrls_re code
  && matches_nowhere styleUrl_re code.

(** ** Buffers

    A [Buffer] is a sequence of bytes.  [Buffer_from] is [Buffer.from(s)],
    the UTF-8 encoding of a string (a lone surrogate is encoded as U+FFFD), and
    [base64] is [buf.toString('base64')]. *)

Definition Buffer := list byte.

Definition byte_of_N (n : N) : byte := default x00 (Byte.of_N (n mod 256)).

Definition is_high_surrogate (c : char) : bool := (55296 <=? c) && (c <=? 56319).
Definition is_low_surrogate (c : char) : bool := (56320 <=? c) && (c <=? 57343).

Definition utf8_code_point (cp : N) : Buffer :=
  if cp <? 128 then [byte_of_N cp]
  else if cp <? 2048 then
    [byte_of_N (N.lor 192 (N.shiftr cp 6)); byte_of_N (N.lor 128 (N.land cp 63))]
  else if cp <? 65536 then
    [byte_of_N (N.lor 224 (N.shiftr cp 12));
     byte_of_N (N.lor 128 (N.land (N.shiftr cp 6) 63));
     byte_of_N (N.lor 128 (N.land cp 63))]
  else
    [byte_of_N (N.lor 240 (N.shiftr cp 18));
     byte_of_N (N.lor 128 (N.land (N.shiftr cp 12) 63));
     byte_of_N (N.lor 128 (N.land (N.shiftr cp 6) 63));
     byte_of_N (N.lor 128 (N.land cp 63))].

Definition utf8_replacement : Buffer := utf8_code_point 65533.

Fixpoint Buffer_from (s : jsstring) : Buffer :=
  match s with
  | [] => []
  | c :: rest =>
      if is_high_surrogate c then
        match rest with
        | lo :: rest' =>
            if is_low_surrogate lo then
              utf8_code_point (65536 + N.shiftl (c - 55296) 10 + (lo - 56320))
                ++ Buffer_from rest'
            else utf8_replacement ++ Buffer_from rest
        | [] => utf8_replacement
        end
      else if is_low_surrogate c then utf8_replacement ++ Buffer_from rest
      else utf8_code_point c ++ Buffer_from rest
  end.

(** The base64 alphabet: [A-Z], [a-z], [0-9], [+], [/]; [=] pads. *)
Definition base64_digit (i : N) : char :=
  if i <? 26 then 65 + i
  else if i <? 52 then 97 + (i - 26)
  else if i <? 62 then 48 + (i - 52)
  else if i =? 62 then 43
  else 47.

Definition base64_pad : char := 61.

Fixpoint base64 (buf : Buffer) : jsstring :=
  match buf with
  | [] => []
  | [a] =>
      let n := Byte.to_N a in
      [base64_digit (N.shiftr n 2); base64_digit (N.shiftl (N.land n 3) 4);
       base64_pad; base64_pad]
  | [a; b] =>
      let n := N.lor (N.shiftl (Byte.to_N a) 8) (Byte.to_N b) in
      [base64_digit (N.shiftr n 10); base64_digit (N.land (N.shiftr n 4) 63);
       base64_digit (N.shiftl (N.land n 15) 2); base64_pad]
  | a :: b :: c :: rest =>
      let n := N.lor (N.shiftl (Byte.to_N a) 16)
                 (N.lor (N.shiftl (Byte.to_N b) 8) (Byte.to_N c)) in
      [base64_digit (N.shiftr n 18); base64_digit (N.land (N.shiftr n 12) 63);
       base64_digit (N.land (N.shiftr n 6) 63); base64_digit (N.land n 63)]
        ++ base64 rest
  end.


(** [buf.slice(start, end)] as [toString] uses it: both ends are clamped. *)
Definition slice (buf : Buffer) (start stop : N) : Buffer :=
  take (N.to_nat (stop - start)) (drop (N.to_nat start) buf).

Definition Buffer_length (buf : Buffer) : N := N.of_nat (length buf).

(** ** The decoders

    The source only encodes; what reads the encoded text back is outside
    it: [base64 -d] in the container, and [buf.toString('utf8')] of the
    runtime.  The two decoders are written down here from their standards, to
    state what the encoders produce. *)



(** The UTF-8 decoder of the Encoding standard, with replacement: a byte
    that cannot start or continue a character gives U+FFFD, and so does a
    character that the end of the buffer cuts short.  Between two bytes the
    decoder has nothing pending, or a character begun: its bits so far, the
    number of bytes still needed and the bounds of the next byte. *)
Record Utf8Pending := {
  utf8_bits : N;
  utf8_needed : nat;
  utf8_lower : N;
  utf8_upper : N;
}.

(** A code point as UTF-16 code units. *)
Definition utf16_code_units (cp : N) : jsstring :=
  if cp <? 65536 then [cp]
  else [55296 + N.shiftr (cp - 65536) 10; 56320 + N.land (cp - 65536) 1023].

(** A byte read with nothing pending. *)
Definition utf8_lead (b : N) : jsstring * option Utf8Pending :=
  if b <? 128 then ([b], None)
  else if (194 <=? b) && (b <=? 223) then
    ([], Some {| utf8_bits := N.land b 31; utf8_needed := 1;
                 utf8_lower := 128; utf8_upper := 191 |})
  else if (224 <=? b) && (b <=? 239) then
    ([], Some {| utf8_bits := N.land b 15; utf8_needed := 2;
                 utf8_lower := if b =? 224 then 160 else 128;
                 utf8_upper := if b =? 237 then 159 else 191 |})
  else if (240 <=? b) && (b <=? 244) then
    ([], Some {| utf8_bits := N.land b 7; utf8_needed := 3;
                 utf8_lower := if b =? 240 then 144 else 128;
                 utf8_upper := if b =? 244 then 143 else 191 |})
  else ([65533], None).

(** One byte: the code units it completes, and what is pending after it.
    A byte out of the bounds ends the pending character with U+FFFD and is
    read again with nothing pending. *)
Definition utf8_step (st : option Utf8Pending) (b : N) : jsstring * option Utf8Pending :=
  match st with
  | None => utf8_lead b
  | Some p =>
      if (utf8_lower p <=? b) && (b <=? utf8_upper p) then
        let cp := N.lor (N.shiftl (utf8_bits p) 6) (N.land b 63) in
        match utf8_needed p with
        | S (S n) =>
            ([], Some {| utf8_bits := cp; utf8_needed := S n;
                         utf8_lower := 128; utf8_upper := 191 |})
        | _ => (utf16_code_units cp, None)
        end
      else (65533 :: fst (utf8_lead b), snd (utf8_lead b))
  end.

Fixpoint utf8_decode_from (st : option Utf8Pending) (buf : Buffer) : jsstring :=
  match buf with
  | [] => match st with None => [] | Some _ => [65533] end
  | b :: rest =>
      fst (utf8_step st (Byte.to_N b))
        ++ utf8_decode_from (snd (utf8_step st (Byte.to_N b))) rest
  end.

Definition utf8_decode (buf : Buffer) : jsstring := utf8_decode_from None buf.

(** The decoder run over some bytes: its output and what is left pending. *)
Fixpoint utf8_steps (st : option Utf8Pending) (bytes : Buffer)
    : jsstring * option Utf8Pending :=
  match bytes with
  | [] => ([], st)
  | b :: rest =>
      let out := utf8_step st (Byte.to_N b) in
      let more := utf8_steps (snd out) rest in
      (fst out ++ fst more, snd more)
  end.

(** A string is well formed when its surrogates come in pairs, a high one
    followed by a low one: it is then a sequence of characters. *)
Fixpoint well_formed (s : jsstring) : bool :=
  match s with
  | [] => true
  | c :: rest =>
      if is_high_surrogate c then
        match rest with
        | lo :: rest' => is_low_surrogate lo && well_formed rest'
        | [] => false
        end
      else negb (is_low_surrogate c) && (c <? 65536) && well_formed rest
  end.

(** [p] holds of the [2 ^ bits] numbers that follow [prefix * 2 ^ bits]:
    a test by enumeration. *)
Fixpoint forall_below (bits : nat) (p : N -> bool) (prefix : N) : bool :=
  match bits with
  | O => p prefix
  | S b => forall_below b p (2 * prefix) && forall_below b p (2 * prefix + 1)
  end.

(** The decoder reads the encoding of a character of the basic plane back
    as that character. *)
Definition bmp_ok (c : N) : bool :=
  is_high_surrogate c || is_low_surrogate c ||
  match utf8_steps None (utf8_code_point c) with
  | ([c'], None) => c' =? c
  | _ => false
  end.

(** ** Numbers and request values

    A JavaScript number is NaN, an infinity or a finite rational; only
    [isNaN] and the comparison with zero are used on them.  A member of the
    JSON request body is absent ([undefined]) or a JSON value. *)

Inductive jsnum :=
  | NaN
  | Infinity (negative : bool)
  | Finite (q : QArith_base.Q).

Definition isNaN (x : jsnum) : bool :=
  match x with NaN => true | _ => false end.

(** [x <= 0] *)
Definition le_zero (x : jsnum) : bool :=
  match x with
  | NaN => false
  | Infinity negative => negative
  | Finite q => (QArith_base.Qnum q <=? 0)%Z
  end.

Definition of_Z (z : Z) : jsnum := Finite (QArith_base.Qmake z 1).

#[local] Set Warnings "-register-all".
Inductive json :=
  | JNull
  | JBool (b : bool)
  | JNumber (x : jsnum)
  | JString (s : jsstring)
  | JArray (items : list json)
  | JObject (members : list (jsstring * json)).

Inductive ErrorName := Error_ | RangeError | TypeError.

Record JsError := { error_name : ErrorName; message : jsstring }.

(** What an operation of the source completes with: a value or a thrown
    error (for a promise: fulfilled or rejected). *)
Inductive completion (A : Type) :=
  | Normal (a : A)
  | Throw (e : JsError).
Arguments Normal {A} a.
Arguments Throw {A} e.

(** The builtins of the JavaScript runtime that the source calls and that
    are not defined in this repository. *)
Class JsRuntime := {
  (** [buf.toString('utf8')]: UTF-8 decoding of a whole buffer. *)
  utf8_toString : Buffer -> jsstring;
  (** [String.prototype.toLowerCase] and [toUpperCase] on a string that
      holds a code unit outside ASCII. *)
  unicode_toLowerCase : jsstring -> jsstring;
  unicode_toUpperCase : jsstring -> jsstring;
  (** [Number(s)] on a string, and on an array or an object. *)
  StringToNumber : jsstring -> jsnum;
  ObjectToNumber : json -> jsnum;
  (** The message of the [ERR_OUT_OF_RANGE] error of a buffer read at
      [offset] of a buffer of the given length. *)
  out_of_range_message : N -> N -> jsstring;
  (** The message of the TypeError of a call of a missing method. *)
  not_a_function_message : jsstring -> jsstring;
}.

Section Runtime.
Context `{JsRuntime}.

Definition is_ascii (c : char) : bool := c <? 128.

Definition ascii_lower (c : char) : char :=
  if (65 <=? c) && (c <=? 90) then c + 32 else c.
Definition ascii_upper (c : char) : char :=
  if (97 <=? c) && (c <=? 122) then c - 32 else c.

Definition toLowerCase (s : jsstring) : jsstring :=
  if forallb is_ascii s then map ascii_lower s else unicode_toLowerCase s.
Definition toUpperCase (s : jsstring) : jsstring :=
  if forallb is_ascii s then map ascii_upper s else unicode_toUpperCase s.

(** [Number(v)] *)
Definition Number (v : json) : jsnum :=
  match v with
  | JNull => of_Z 0
  | JBool b => if b then of_Z 1 else of_Z 0
  | JNumber x => x
  | JString s => StringToNumber s
  | JArray _ | JObject _ => ObjectToNumber v
  end.

(** ** The log demultiplexer of [waitForCompletion] *)

(** [buf.readUInt32BE(offset)]: throws unless four bytes are there; the
    value is [first * 2 ** 24 + ... + last]. *)
Definition readUInt32BE (buf : Buffer) (offset : N) : completion N :=
  match drop (N.to_nat offset) buf with
  | b0 :: b1 :: b2 :: b3 :: _ =>
      Normal (Byte.to_N b0 * 16777216 + Byte.to_N b1 * 65536
              + Byte.to_N b2 * 256 + Byte.to_N b3)
  | _ => Throw {| error_name := RangeError;
                  message := out_of_range_message offset (Buffer_length buf) |}
  end.

(** The [while (offset < logsBuffer.length)] loop; every turn advances
    [offset] by at least 8, so [fuel] turns are enough when [fuel] exceeds
    the length of the buffer ([None]: out of fuel). *)
Fixpoint demux_loop (fuel : nat) (logsBuffer : Buffer) (offset : N)
    (cleanLogs : jsstring) : option (completion jsstring) :=
  match fuel with
  | O => None
  | S fuel' =>
      if offset <? Buffer_length logsBuffer then
        match readUInt32BE logsBuffer (offset + 4) with
        | Throw e => Some (Throw e)
        | Normal length =>
            let offset := offset + 8 in
            let cleanLogs :=
              cleanLogs ++ utf8_toString (slice logsBuffer offset (offset + length)) in
            let offset := offset + length in
            demux_loop fuel' logsBuffer offset cleanLogs
        end
      else Some (Normal cleanLogs)
  end.

Definition demux_fuel (logsBuffer : Buffer) : nat := S (length logsBuffer).

Definition demux (logsBuffer : Buffer) : option (completion jsstring) :=
  demux_loop (demux_fuel logsBuffer) logsBuffer 0 [].

(** The loop never runs out of fuel, so [demux_result] is the value the
    loop of the source ends with; its [None] case is never taken (see
    [demux_result_total] below). *)
Definition demux_result (logsBuffer : Buffer) : completion jsstring :=
  match demux logsBuffer with
  | Some r => r
  | None => Normal []
  end.

End Runtime.

(** ** Configuration *)

(** A member of [FRAMEWORKS]; a property that the looked-up object does not
    have reads as [undefined] ([None]). *)
Record FrameworkConfig := {
  image : option jsstring;
  filePath : option jsstring;
  distPath : option jsstring;
  cacheHostPath : option jsstring;
  cacheContPath : option jsstring;
  buildCmd : option jsstring;
}.

Definition angular_config : FrameworkConfig := {|
  image := Some (lit "angular-compiler:latest");
  filePath := Some (lit "src/app/app.ts");
  distPath := Some (lit "/workspace/template-app/dist/template-app");
  cacheHostPath := Some (lit "/tmp/angular-cache");
  cacheContPath := Some (lit "/workspace/template-app/.angular/cache");
  buildCmd := Some (lit "ng build --configuration production --output-hashing none --optimization true --source-map true --progress false");
|}.

Definition react_config : FrameworkConfig := {|
  image := Some (lit "react-compiler:latest");
  filePath := Some (lit "src/App.tsx");
  distPath := Some (lit "/workspace/template-app/dist");
  cacheHostPath := Some (lit "/tmp/react-cache");
  cacheContPath := Some (lit "/workspace/template-app/node_modules/.vite");
  buildCmd := Some (lit "npm run build");
|}.

Definition vue_config : FrameworkConfig := {|
  image := Some (lit "vue-compiler:latest");
  filePath := Some (lit "src/App.vue");
  distPath := Some (lit "/workspace/template-app/dist");
  cacheHostPath := Some (lit "/tmp/vue-cache");
  cacheContPath := Some (lit "/workspace/template-app/node_modules/.vite");
  buildCmd := Some (lit "npx vite build");
|}.

(** [FRAMEWORKS] is an object literal, so a key that is not one of its own
    three is looked up in [Object.prototype]; what is found there is truthy
    and has none of the six properties. *)
Definition Object_prototype_names : list jsstring :=
  map lit ["constructor"; "__defineGetter__"; "__defineSetter__";
           "hasOwnProperty"; "__lookupGetter__"; "__lookupSetter__";
           "isPrototypeOf"; "propertyIsEnumerable"; "toString"; "valueOf";
           "__proto__"; "toLocaleString"]%string.

Definition inherited_member : FrameworkConfig := {|
  image := None; filePath := None; distPath := None;
  cacheHostPath := None; cacheContPath := None; buildCmd := None;
|}.

(** [FRAMEWORKS[key]]; [None] is [undefined]. *)
Definition FRAMEWORKS (key : jsstring) : option FrameworkConfig :=
  if jsstring_eqb key (lit "angular") then Some angular_config
  else if jsstring_eqb key (lit "react") then Some react_config
  else if jsstring_eqb key (lit "vue") then Some vue_config
  else if existsb (jsstring_eqb key) Object_prototype_names then Some inherited_member
  else None.

(** The own keys of [FRAMEWORKS]. *)
Definition framework_keys : list jsstring := [lit "angular"; lit "react"; lit "vue"].

Record DockerLimits := { MEMORY : jsnum; CPU_PERIOD : jsnum; CPU_QUOTA : jsnum }.

(** The two module-level variables that [/config] updates. *)
Record Globals := {
  DOCKER_LIMITS : DockerLimits;
  DEFAULT_COMPILE_TIMEOUT_MS : jsnum;
}.

Definition BAD_REQUEST : N := 400.
Definition INTERNAL_SERVER_ERROR : N := 500.
Definition OK : N := 200.

(** ** The container engine *)

Inductive EntryType :=
  | file | link | symlink | directory | block_device | character_device
  | fifo | contiguous_file | pax_header | other_type.

Definition is_file (t : EntryType) : bool :=
  match t with file => true | _ => false end.

(** One [entry] event of [tar.extract()]: the header and the chunks of the
    body. *)
Record Entry := {
  header_name : jsstring;
  header_type : EntryType;
  chunks : list Buffer;
}.

(** How [tarStream.pipe(extract)] ends: the extractor emits [finish]; the
    extractor emits [error], for which it has a listener; or the source
    stream [tarStream] itself emits [error].  [pipe] forwards no error of
    its source and the source is given no listener, so the last one is
    thrown from the event loop as an uncaught exception.  As with the
    promises of the engine, which all settle, the stream is taken to end. *)
Inductive StreamEnd :=
  | finish
  | error_event (e : JsError)
  | source_error (e : JsError).

Record TarStream := { entries : list Entry; stream_end : StreamEnd }.

(** A container of [dockerode]: what each of its methods completes with. *)
Record Container := {
  start : completion unit;
  wait : completion Z;
  logs : completion Buffer;
  getArchive : option jsstring -> completion TarStream;
  remove : completion unit;
}.

Record ResourceLimits := { memory : jsnum; cpuPeriod : jsnum; cpuQuota : jsnum }.

Record CreateOptions := {
  Image : option jsstring;
  name : jsstring;
  Cmd : list jsstring;
  Binds : list jsstring;
  Memory : jsnum;
  CpuPeriod : jsnum;
  CpuQuota : jsnum;
  User : jsstring;
}.

(** When the timer of [waitForCompletion] fires, relative to the two
    awaits of the completion path. *)
Inductive Timer :=
  | fires_during_wait
  | fires_during_logs
  | fires_after_completion.

(** What is outside the handler for one request. *)
Record Env := {
  uuidv4 : jsstring;
  createContainer : CreateOptions -> completion Container;
  timer : Timer;
  elapsed : jsnum;
}.

(** ** Responses and the trace of a request *)

Inductive ResponseBody :=
  | Failure (error : jsstring) (logs : option jsstring)
  | Success (framework : jsstring) (files : gmap jsstring jsstring)
      (compilationTime : jsnum).

Inductive Event :=
  | DockerCreateContainer (opts : CreateOptions)
  | ContainerStart
  | ContainerWait
  | ContainerLogs
  | ContainerGetArchive (path : option jsstring)
  | ContainerRemove (force : bool)
  | Respond (status : N) (body : ResponseBody)
  | ConsoleError (label : jsstring) (detail : jsstring)
  | UncaughtException (e : JsError).

(** ** The handler monad

    The handler threads the trace of its effects and its local variable
    [container]; an operation completes normally or throws. *)

Record HandlerState := {
  container : option Container;
  events : list Event;
}.

Definition M (A : Type) : Type := HandlerState -> completion A * HandlerState.

Definition ret {A} (a : A) : M A := fun s => (Normal a, s).

Definition bind {A B} (m : M A) (k : A -> M B) : M B :=
  fun s =>
    match m s with
    | (Normal a, s') => k a s'
    | (Throw e, s') => (Throw e, s')
    end.

Notation "x <- m ;; k" := (bind m (fun x => k))
  (at level 100, m at next level, right associativity).
Notation "m ;;; k" := (bind m (fun _ => k))
  (at level 100, right associativity).

Definition throw {A} (e : JsError) : M A := fun s => (Throw e, s).

(** [await p]: the completion of the promise [p]. *)
Definition await {A} (p : completion A) : M A := fun s => (p, s).

Definition emit (ev : Event) : M unit :=
  fun s => (Normal tt, {| container := container s; events := events s ++ [ev] |}).

Definition set_container (c : Container) : M unit :=
  fun s => (Normal tt, {| container := Some c; events := events s |}).

Definition get_container : M (option Container) :=
  fun s => (Normal (container s), s).

(** An [error] event without a listener: the error is thrown outside
    every [try] of the handler, nothing listens for [uncaughtException], and
    the process exits.  The trace ends there. *)
Definition uncaught {A} (e : JsError) : M A :=
  fun s => (Throw e, {| container := container s;
                        events := events s ++ [UncaughtException e] |}).

Definition is_uncaught (ev : Event) : bool :=
  match ev with
  | UncaughtException _ => true
  | _ => false
  end.

(** The process has exited. *)
Definition exited (s : HandlerState) : bool := existsb is_uncaught (events s).

(** [try { body } catch (error) { handler error }]; no [catch] block runs
    once the process has exited. *)
Definition try_catch {A} (body : M A) (handler : JsError -> M A) : M A :=
  fun s =>
    match body s with
    | (Normal a, s') => (Normal a, s')
    | (Throw e, s') => if exited s' then (Throw e, s') else handler e s'
    end.

(** [try { body } finally { cleanup }]; no [finally] block runs once the
    process has exited. *)
Definition try_finally {A} (body : M A) (cleanup : M unit) : M A :=
  fun s =>
    match body s with
    | (r, s') =>
        if exited s' then (r, s')
        else
          match cleanup s' with
          | (Normal _, s'') => (r, s'')
          | (Throw e, s'') => (Throw e, s'')
          end
    end.

(** [res.status(status).json(body)] *)
Definition respond (status : N) (body : ResponseBody) : M unit :=
  emit (Respond status body).

Definition initial_state : HandlerState := {| container := None; events := [] |}.

(** A template literal prints [undefined] for a missing property. *)
Definition str (v : option jsstring) : jsstring := default (lit "undefined") v.

(** The body of a [/compile] request, destructured. *)
Record Request := {
  req_code : option json;
  req_framework : option json;
  req_timeout : option json;
  req_memory : option json;
  req_cpuPeriod : option json;
  req_cpuQuota : option json;
}.


Section Handler.
Context `{JsRuntime}.

(** ** [createCompilationContainer] *)

Definition finalCode (framework userCode : jsstring) : jsstring :=
  if jsstring_eqb framework (lit "angular") then prepareAngularCode userCode else userCode.

Definition cleanupCmd (framework : jsstring) : jsstring :=
  if jsstring_eqb framework (lit "vue") then lit "rm -f src/components/*.vue && "
  else if jsstring_eqb framework (lit "react") then lit "rm -f src/*.css src/App.tsx && "
  else if jsstring_eqb framework (lit "angular") then
    lit "rm -f src/app/app.ts src/app/app.component.html src/app/app.component.css && "
  else [].

(** The script before and after the interpolated [base64Code]. *)
Definition script_head (framework : jsstring) : jsstring :=
  newline ++ lit "cd /workspace/template-app" ++ newline
  ++ cleanupCmd framework ++ newline
  ++ lit "printf '%s' " ++ dquote.

Definition script_tail (config : FrameworkConfig) : jsstring :=
  dquote ++ lit " | base64 -d > " ++ str (filePath config) ++ newline
  ++ lit "# Ensure the file timestamp is updated for Vite to pick up changes" ++ newline
  ++ lit "touch " ++ str (filePath config) ++ newline
  ++ lit "sync" ++ newline
  ++ str (buildCmd config) ++ lit " && echo " ++ dquote
  ++ lit "COMPILATION_COMPLETE" ++ dquote ++ newline.

Definition script (config : FrameworkConfig) (framework base64Code : jsstring) : jsstring :=
  script_head framework ++ base64Code ++ script_tail config.

Definition container_options (id userCode : jsstring) (config : FrameworkConfig)
    (framework : jsstring) (resourceLimits : ResourceLimits) : CreateOptions :=
  let finalCode := finalCode framework userCode in
  let base64Code := base64 (Buffer_from finalCode) in
  {| Image := image config;
     name := framework ++ lit "-compile-" ++ id;
     Cmd := [lit "/bin/sh"; lit "-c"; script config framework base64Code];
     Binds := [str (cacheHostPath config) ++ lit ":" ++ str (cacheContPath config)];
     Memory := memory resourceLimits;
     CpuPeriod := cpuPeriod resourceLimits;
     CpuQuota := cpuQuota resourceLimits;
     User := lit "root" |}.

Definition createCompilationContainer (env : Env) (id userCode : jsstring)
    (config : FrameworkConfig) (framework : jsstring)
    (resourceLimits : ResourceLimits) : M Container :=
  let opts := container_options id userCode config framework resourceLimits in
  emit (DockerCreateContainer opts) ;;;
  await (createContainer env opts).

(** ** [waitForCompletion] *)

Record WaitResult := {
  result_success : bool;
  result_error : option jsstring;
  result_logs : jsstring;
}.

Definition timeout_result : WaitResult :=
  {| result_success := false; result_error := Some (lit "Compilation timeout");
     result_logs := [] |}.

Definition thrown_result (e : JsError) : WaitResult :=
  {| result_success := false; result_error := Some (message e); result_logs := [] |}.

(** What the completion path resolves with once the logs are there. *)
Definition completion_result (StatusCode : Z) (logsBuffer : Buffer) : WaitResult :=
  match demux_result logsBuffer with
  | Throw e => thrown_result e
  | Normal cleanLogs =>
      if (StatusCode =? 0)%Z && includes (lit "COMPILATION_COMPLETE") cleanLogs then
        {| result_success := true; result_error := None; result_logs := cleanLogs |}
      else
        {| result_success := false; result_error := Some (lit "Build Failed");
           result_logs := cleanLogs |}
  end.

(** The promise never rejects: the timer and the completion path both
    [resolve], and the first to do so wins. *)
Definition waitForCompletion (c : Container) (t : Timer) : M WaitResult :=
  emit ContainerWait ;;;
  match t with
  | fires_during_wait => ret timeout_result
  | _ =>
      match wait c with
      | Throw e => ret (thrown_result e)
      | Normal StatusCode =>
          emit ContainerLogs ;;;
          match t with
          | fires_during_logs => ret timeout_result
          | _ =>
              match logs c with
              | Throw e => ret (thrown_result e)
              | Normal logsBuffer => ret (completion_result StatusCode logsBuffer)
              end
          end
      end
  end.

(** ** [extractCompiledFiles] *)

(** [/\.(js|css|html|map)$/.test(filename)] *)
Definition output_extensions : list jsstring :=
  map lit [".js"; ".css"; ".html"; ".map"]%string.

Definition test_extension (filename : jsstring) : bool :=
  existsb (fun ext => ends_with ext filename) output_extensions.

Definition basename (name : jsstring) : jsstring := pop (split 47 name).

(** The [end] listener of one entry. *)
Definition on_entry (files : gmap jsstring jsstring) (e : Entry) : gmap jsstring jsstring :=
  let filename := basename (header_name e) in
  if is_file (header_type e) && test_extension filename then
    <[filename := utf8_toString (concat (chunks e))]> files
  else files.

Definition collect (es : list Entry) : gmap jsstring jsstring :=
  fold_left on_entry es ∅.

(** The text of an entry, and the entries that are kept, in the words of the
    design document: a regular file whose base name ends in one of the
    four extensions. *)
Definition content (e : Entry) : jsstring := utf8_toString (concat (chunks e)).

Definition retained (e : Entry) : Prop :=
  header_type e = file
  /\ exists stem ext, ext ∈ output_extensions /\ basename (header_name e) = stem ++ ext.

(** The test of [on_entry]. *)
Definition kept (e : Entry) : bool :=
  is_file (header_type e) && test_extension (basename (header_name e)).

(** The promise built inside the [try] is returned without [await]: its
    rejection is not caught by the [catch] of the function.  An [error] of
    [tarStream] itself settles no promise: it is an uncaught exception. *)
Definition extractCompiledFiles (c : Container) (distPath : option jsstring)
    : M (gmap jsstring jsstring) :=
  emit (ContainerGetArchive distPath) ;;;
  match getArchive c distPath with
  | Throw e =>
      emit (ConsoleError (lit "Extraction Failed:") (message e)) ;;;
      ret ∅
  | Normal tarStream =>
      let files := collect (entries tarStream) in
      match stream_end tarStream with
      | finish => ret files
      | error_event e => throw e
      | source_error e => uncaught e
      end
  end.

(** ** [app.post('/compile')] *)

Definition invalid_number (x : jsnum) : bool := isNaN x || le_zero x.

(** [!code || typeof code !== 'string'] *)
Definition valid_code (code : option json) : option jsstring :=
  match code with
  | Some (JString (c :: s)) => Some (c :: s)
  | _ => None
  end.

Definition override (field : option json) (fallback : jsnum) : jsnum :=
  match field with
  | Some v => Number v
  | None => fallback
  end.

(** A field that is present and does not convert to a number above zero. *)
Definition invalid_override (field : option json) : bool :=
  match field with
  | Some v => invalid_number (Number v)
  | None => false
  end.

Definition invalid_timeout_text : jsstring :=
  lit "Invalid timeout value. Must be a positive number (milliseconds)".
Definition invalid_limits_text : jsstring :=
  lit "Invalid resource limits. memory, cpuPeriod, and cpuQuota must be positive numbers".
Definition invalid_code_text : jsstring := lit "Invalid code provided".
Definition unsupported_text (framework : jsstring) : jsstring :=
  lit "Unsupported framework: " ++ framework.
Definition build_failed_text (framework : jsstring) : jsstring :=
  toUpperCase framework ++ lit " Build Failed".

(** The [try] block. *)
Definition compile_try (env : Env) (compilationId code : jsstring)
    (config : FrameworkConfig) (framework : jsstring)
    (resourceLimits : ResourceLimits) : M unit :=
  c <- createCompilationContainer env compilationId code config framework resourceLimits ;;
  set_container c ;;;
  emit ContainerStart ;;;
  await (start c) ;;;
  result <- waitForCompletion c (timer env) ;;
  if negb (result_success result) then
    respond BAD_REQUEST (Failure (build_failed_text framework) (Some (result_logs result)))
  else
    compiledFiles <- extractCompiledFiles c (distPath config) ;;
    let duration := elapsed env in
    respond OK (Success framework compiledFiles duration).

(** The [catch] block. *)
Definition compile_catch (compilationId : jsstring) (error : JsError) : M unit :=
  emit (ConsoleError (lit "[" ++ compilationId ++ lit "] Error:") (message error)) ;;;
  respond INTERNAL_SERVER_ERROR (Failure (message error) None).

(** The [finally] block. *)
Definition compile_finally : M unit :=
  container <- get_container ;;
  match container with
  | Some c =>
      try_catch
        (emit (ContainerRemove true) ;;; await (remove c))
        (fun e => emit (ConsoleError (lit "Cleanup error:") (message e)))
  | None => ret tt
  end.

(** The guarded part of the handler: [try], [catch] and [finally]. *)
Definition compile_guarded (env : Env) (compilationId code : jsstring)
    (config : FrameworkConfig) (framework : jsstring)
    (resourceLimits : ResourceLimits) : M unit :=
  try_finally
    (try_catch
       (compile_try env compilationId code config framework resourceLimits)
       (compile_catch compilationId))
    compile_finally.

Definition compile (g : Globals) (env : Env) (body : Request) : M unit :=
  match default (JString (lit "angular")) (req_framework body) with
  | JString framework =>
      let compilationId := uuidv4 env in
      let config := FRAMEWORKS (toLowerCase framework) in
      let compileTimeoutMs :=
        override (req_timeout body) (DEFAULT_COMPILE_TIMEOUT_MS g) in
      if invalid_number compileTimeoutMs then
        respond BAD_REQUEST (Failure invalid_timeout_text None)
      else
        match config with
        | None => respond BAD_REQUEST (Failure (unsupported_text framework) None)
        | Some config =>
            match valid_code (req_code body) with
            | None => respond BAD_REQUEST (Failure invalid_code_text None)
            | Some code =>
                let resourceLimits :=
                  {| memory := override (req_memory body) (MEMORY (DOCKER_LIMITS g));
                     cpuPeriod := override (req_cpuPeriod body) (CPU_PERIOD (DOCKER_LIMITS g));
                     cpuQuota := override (req_cpuQuota body) (CPU_QUOTA (DOCKER_LIMITS g)) |} in
                if invalid_number (memory resourceLimits)
                   || invalid_number (cpuPeriod resourceLimits)
                   || invalid_number (cpuQuota resourceLimits) then
                  respond BAD_REQUEST (Failure invalid_limits_text None)
                else
                  (* try { ... } catch (error) { ... } finally { ... } *)
                  compile_guarded env compilationId code config framework resourceLimits
            end
        end
  | _ =>
      (* [framework.toLowerCase] is not a function *)
      throw {| error_name := TypeError;
               message := not_a_function_message (lit "framework.toLowerCase") |}
  end.

(** The trace of a request, and what the handler completes with. *)
Definition run (g : Globals) (env : Env) (body : Request) : completion unit * list Event :=
  let out := compile g env body initial_state in (fst out, events (snd out)).

Definition trace (g : Globals) (env : Env) (body : Request) : list Event :=
  snd (run g env body).

(** What the checks of the handler decide before the [try] block, read
    off [compile]: used to state which requests reach the container engine. *)
Inductive Validation :=
  | NotAString
  | Rejected (text : jsstring)
  | Accepted (framework : jsstring) (config : FrameworkConfig) (code : jsstring)
      (resourceLimits : ResourceLimits).

Definition limits_of (g : Globals) (body : Request) : ResourceLimits :=
  {| memory := override (req_memory body) (MEMORY (DOCKER_LIMITS g));
     cpuPeriod := override (req_cpuPeriod body) (CPU_PERIOD (DOCKER_LIMITS g));
     cpuQuota := override (req_cpuQuota body) (CPU_QUOTA (DOCKER_LIMITS g)) |}.

Definition validation (g : Globals) (body : Request) : Validation :=
  match default (JString (lit "angular")) (req_framework body) with
  | JString framework =>
      if invalid_number (override (req_timeout body) (DEFAULT_COMPILE_TIMEOUT_MS g)) then
        Rejected invalid_timeout_text
      else
        match FRAMEWORKS (toLowerCase framework) with
        | None => Rejected (unsupported_text framework)
        | Some config =>
            match valid_code (req_code body) with
            | None => Rejected invalid_code_text
            | Some code =>
                if invalid_number (memory (limits_of g body))
                   || invalid_number (cpuPeriod (limits_of g body))
                   || invalid_number (cpuQuota (limits_of g body)) then
                  Rejected invalid_limits_text
                else Accepted framework config code (limits_of g body)
            end
        end
  | _ => NotAString
  end.

End Handler.

(** The responses sent and the removals requested in a trace. *)
Definition response_of (ev : Event) : option (N * ResponseBody) :=
  match ev with
  | Respond status body => Some (status, body)
  | _ => None
  end.

Definition responses (t : list Event) : list (N * ResponseBody) := omap response_of t.

Definition is_remove (ev : Event) : bool :=
  match ev with
  | ContainerRemove _ => true
  | _ => false
  end.

Definition removals (t : list Event) : nat := length (List.filter is_remove t).

(** The containers that the engine created during a trace. *)
Definition created_by (env : Env) (ev : Event) : option Container :=
  match ev with
  | DockerCreateContainer opts =>
      match createContainer env opts with
      | Normal c => Some c
      | Throw _ => None
      end
  | _ => None
  end.

Definition created_containers (env : Env) (t : list Event) : list Container :=
  omap (created_by env) t.

(** The deadline elapses before the completion path resolves: during the
    wait for the exit, or, once the container has exited, during the read of
    its logs. *)
Definition deadline_first (env : Env) (c : Container) : Prop :=
  timer env = fires_during_wait
  \/ (timer env = fires_during_logs /\ exists StatusCode, wait c = Normal StatusCode).

(** The [framework] of a body when it is a string (it defaults to
    [angular]); on any other value [framework.toLowerCase()] throws. *)
Definition framework_string (body : Request) : option jsstring :=
  match default (JString (lit "angular")) (req_framework body) with
  | JString framework => Some framework
  | _ => None
  end.

(** The same engine, but the removal of a container completes with [r]. *)
Definition container_with_remove (r : completion unit) (c : Container) : Container :=
  {| start := start c; wait := wait c; logs := logs c;
     getArchive := getArchive c; remove := r |}.

Definition with_remove (r : completion unit) (env : Env) : Env :=
  {| uuidv4 := uuidv4 env;
     createContainer opts :=
       match createContainer env opts with
       | Normal c => Normal (container_with_remove r c)
       | Throw e => Throw e
       end;
     timer := timer env;
     elapsed := elapsed env |}.

(** ** The framing of the log stream

    The engine frames every record of the log stream with a header of 8
    bytes: the tag of the stream, three reserved bytes and the length of the
    payload as a big-endian 32-bit number.  [encode] is that framing, as the
    design document describes it; the source only decodes. *)

Record LogRecord := {
  tag : byte;
  reserved : byte * byte * byte;
  payload : Buffer;
}.

Definition uint32BE (n : N) : Buffer :=
  [byte_of_N (n / 16777216); byte_of_N (n / 65536); byte_of_N (n / 256); byte_of_N n].

Definition frame (r : LogRecord) : Buffer :=
  let '(r1, r2, r3) := reserved r in
  [tag r; r1; r2; r3] ++ uint32BE (Buffer_length (payload r)) ++ payload r.

Definition encode (rs : list LogRecord) : Buffer := concat (map frame rs).

Definition fits_uint32 (r : LogRecord) : Prop := Buffer_length (payload r) < 4294967296.

(** The transcript of the design document: the payloads of the records
    concatenated in their order, and that concatenated payload decoded as one
    UTF-8 text. *)
Definition transcript `{JsRuntime} (rs : list LogRecord) : jsstring :=
  utf8_toString (concat (map payload rs)).

(** What the loop of the source accumulates over whole records: it decodes
    the payload of every record on its own and appends the text. *)
Definition decoded_records `{JsRuntime} (rs : list LogRecord) : jsstring :=
  concat (map (fun r => utf8_toString (payload r)) rs).

(** ** A runtime to run the definitions on examples

    It decodes UTF-8 as the Encoding standard says, and agrees with Node on
    ASCII strings and on strings that are a decimal integer literal; it is
    only used to evaluate the model on such data. *)

Definition decimal (n : N) : jsstring := lit (NilZero.string_of_uint (N.to_uint n)).

Definition is_digit (c : char) : bool := (48 <=? c) && (c <=? 57).

Definition example_StringToNumber (s : jsstring) : jsnum :=
  if forallb is_digit s then
    of_Z (Z.of_N (fold_left (fun acc c => 10 * acc + (c - 48)) s 0))
  else NaN.

Definition example_out_of_range_message (offset len : N) : jsstring :=
  if len <? 4 then lit "Attempt to access memory outside buffer bounds"
  else lit "The value of " ++ dquote ++ lit "offset" ++ dquote
       ++ lit " is out of range. It must be >= 0 and <= " ++ decimal (len - 4)
       ++ lit ". Received " ++ decimal offset.

#[local] Instance example_runtime : JsRuntime := {|
  utf8_toString := utf8_decode;
  unicode_toLowerCase s := s;
  unicode_toUpperCase s := s;
  StringToNumber := example_StringToNumber;
  ObjectToNumber _ := NaN;
  out_of_range_message := example_out_of_range_message;
  not_a_function_message what := what ++ lit " is not a function";
|}.

Definition example_globals : Globals :=
  {| DOCKER_LIMITS := {| MEMORY := of_Z 2147483648; CPU_PERIOD := of_Z 100000;
                         CPU_QUOTA := of_Z 200000 |};
     DEFAULT_COMPILE_TIMEOUT_MS := of_Z 60000 |}.

Definition example_body (framework : string) (timeout memory : option Z) : Request :=
  {| req_code := Some (JString (lit "export default function App() { return null }"));
     req_framework := Some (JString (lit framework));
     req_timeout := (fun z => JNumber (of_Z z)) <$> timeout;
     req_memory := (fun z => JNumber (of_Z z)) <$> memory;
     req_cpuPeriod := None;
     req_cpuQuota := None |}.

Definition example_env (c : Container) (t : Timer) : Env :=
  {| uuidv4 := lit "00000000-0000-4000-8000-000000000000";
     createContainer := fun _ => Normal c;
     timer := t;
     elapsed := of_Z 1234 |}.

Definition ascii_bytes (s : string) : Buffer := map byte_of_ascii (list_ascii_of_string s).

Definition stdout_record (s : string) : LogRecord :=
  {| tag := x01; reserved := (x00, x00, x00); payload := ascii_bytes s |}.
Definition stderr_record (s : string) : LogRecord :=
  {| tag := x02; reserved := (x00, x00, x00); payload := ascii_bytes s |}.

(** A record that holds a whole text, and the two halves of a character
    that spans two records (the bytes [C3 A9] of U+00E9). *)
Definition text_record (t : byte) (text : jsstring) : LogRecord :=
  {| tag := t; reserved := (x00, x00, x00); payload := Buffer_from text |}.

Definition split_head : LogRecord :=
  {| tag := x01; reserved := (x00, x00, x00); payload := [x41; xc3] |}.
Definition split_tail : LogRecord :=
  {| tag := x01; reserved := (x00, x00, x00); payload := [xa9; x42] |}.

(** Data for the examples. *)

Definition normalized_example : jsstring :=
  common_import ++ lit "@Component({" ++ newline
  ++ lit "  standalone: true, selector: 'app-root', template: 'hi' }) export class AppComponent {}".

Definition text_chunks (s : string) : list Buffer := [ascii_bytes s].

Definition example_archive : list Entry :=
  [ {| header_name := lit "dir/"; header_type := directory; chunks := [] |};
    {| header_name := lit "a.js"; header_type := file; chunks := text_chunks "old" |};
    {| header_name := lit "b.CSS"; header_type := file; chunks := text_chunks "css" |};
    {| header_name := lit "dir/c.html"; header_type := file; chunks := text_chunks "page" |};
    {| header_name := lit "dir/a.js"; header_type := file; chunks := text_chunks "new" |};
    {| header_name := lit "link.js"; header_type := symlink; chunks := [] |} ].

Definition example_container (archive : completion TarStream) : Container :=
  {| start := Normal tt;
     wait := Normal 0%Z;
     logs := Normal (encode [stdout_record "COMPILATION_COMPLETE"]);
     getArchive := fun _ => archive;
     remove := Normal tt |}.

Definition react_source : jsstring := lit "export default function App() { return null }".


Definition react_limits : ResourceLimits :=
  {| memory := of_Z 2147483648; cpuPeriod := of_Z 100000; cpuQuota := of_Z 200000 |}.

Definition finished_archive : completion TarStream :=
  Normal {| entries := example_archive; stream_end := finish |}.

(** A container whose build fails without a line of output. *)
Definition silent_failure : Container :=
  {| start := Normal tt; wait := Normal 1%Z; logs := Normal [];
     getArchive := fun _ => finished_archive; remove := Normal tt |}.

Definition stream_error : JsError :=
  {| error_name := Error_; message := lit "Unexpected end of data" |}.

Definition broken_archive : completion TarStream :=
  Normal {| entries := example_archive; stream_end := error_event stream_error |}.

(** The download of the archive breaks off: the source stream emits the
    error of an aborted response. *)
Definition connection_reset : JsError :=
  {| error_name := Error_; message := lit "aborted" |}.

Definition aborted_archive : completion TarStream :=
  Normal {| entries := example_archive; stream_end := source_error connection_reset |}.

(** ** [app.get('/config')] and [app.put('/config')]

    The two module-level variables are the state of these handlers:
    [put_config] returns the new state with the response.  Every field of the
    body is handled by the same pattern, [assign]: skip it when it is
    [undefined], answer 400 when it does not convert to a number above zero,
    store it and go on otherwise. *)

Record ConfigBody := {
  put_memory : option json;
  put_cpuPeriod : option json;
  put_cpuQuota : option json;
  put_timeout : option json;
}.

Inductive ConfigResponse :=
  | ConfigError (error : jsstring)
  | ConfigUpdated (message : jsstring) (dockerLimits : DockerLimits)
      (defaultCompileTimeoutMs : jsnum)
  | ConfigView (dockerLimits : DockerLimits) (defaultCompileTimeoutMs : jsnum)
      (note : jsstring).

Definition set_timeout (x : jsnum) (g : Globals) : Globals :=
  {| DOCKER_LIMITS := DOCKER_LIMITS g; DEFAULT_COMPILE_TIMEOUT_MS := x |}.

Definition set_MEMORY (x : jsnum) (g : Globals) : Globals :=
  {| DOCKER_LIMITS := {| MEMORY := x; CPU_PERIOD := CPU_PERIOD (DOCKER_LIMITS g);
                         CPU_QUOTA := CPU_QUOTA (DOCKER_LIMITS g) |};
     DEFAULT_COMPILE_TIMEOUT_MS := DEFAULT_COMPILE_TIMEOUT_MS g |}.

Definition set_CPU_PERIOD (x : jsnum) (g : Globals) : Globals :=
  {| DOCKER_LIMITS := {| MEMORY := MEMORY (DOCKER_LIMITS g); CPU_PERIOD := x;
                         CPU_QUOTA := CPU_QUOTA (DOCKER_LIMITS g) |};
     DEFAULT_COMPILE_TIMEOUT_MS := DEFAULT_COMPILE_TIMEOUT_MS g |}.

Definition set_CPU_QUOTA (x : jsnum) (g : Globals) : Globals :=
  {| DOCKER_LIMITS := {| MEMORY := MEMORY (DOCKER_LIMITS g);
                         CPU_PERIOD := CPU_PERIOD (DOCKER_LIMITS g); CPU_QUOTA := x |};
     DEFAULT_COMPILE_TIMEOUT_MS := DEFAULT_COMPILE_TIMEOUT_MS g |}.

Definition invalid_memory_text : jsstring :=
  lit "Invalid memory value. Must be a positive number (bytes)".
Definition invalid_cpuPeriod_text : jsstring :=
  lit "Invalid cpuPeriod value. Must be a positive number".
Definition invalid_cpuQuota_text : jsstring :=
  lit "Invalid cpuQuota value. Must be a positive number".

Section Config.
Context `{JsRuntime}.

(** [if (field !== undefined) { const x = Number(field); if (isNaN(x) || x <= 0)
    return res.status(400).json(...); VARIABLE = x; }], then the rest. *)
Definition assign (field : option json) (text : jsstring)
    (store : jsnum -> Globals -> Globals)
    (rest : Globals -> Globals * (N * ConfigResponse))
    (g : Globals) : Globals * (N * ConfigResponse) :=
  match field with
  | Some v =>
      let x := Number v in
      if isNaN x || le_zero x then (g, (BAD_REQUEST, ConfigError text))
      else rest (store x g)
  | None => rest g
  end.

Definition put_config (g : Globals) (body : ConfigBody) : Globals * (N * ConfigResponse) :=
  assign (put_timeout body) invalid_timeout_text set_timeout
    (assign (put_memory body) invalid_memory_text set_MEMORY
       (assign (put_cpuPeriod body) invalid_cpuPeriod_text set_CPU_PERIOD
          (assign (put_cpuQuota body) invalid_cpuQuota_text set_CPU_QUOTA
             (fun g => (g, (OK, ConfigUpdated (lit "Configuration updated")
                                  (DOCKER_LIMITS g) (DEFAULT_COMPILE_TIMEOUT_MS g)))))))
    g.

Definition get_config (g : Globals) : N * ConfigResponse :=
  (OK, ConfigView (DOCKER_LIMITS g) (DEFAULT_COMPILE_TIMEOUT_MS g)
         (lit "Use PUT /config to update these values at runtime")).

(** The value a field stores: present and a number above zero. *)
Definition accepted (field : option json) : option jsnum :=
  match field with
  | Some v => if invalid_number (Number v) then None else Some (Number v)
  | None => None
  end.

End Config.

(** The four stored values are numbers above zero. *)
Definition valid_globals (g : Globals) : bool :=
  negb (invalid_number (DEFAULT_COMPILE_TIMEOUT_MS g))
  && negb (invalid_number (MEMORY (DOCKER_LIMITS g)))
  && negb (invalid_number (CPU_PERIOD (DOCKER_LIMITS g)))
  && negb (invalid_number (CPU_QUOTA (DOCKER_LIMITS g))).

(** No response is sent after the removal of the container was requested. *)
Definition is_respond (ev : Event) : bool :=
  match ev with
  | Respond _ _ => true
  | _ => false
  end.

Fixpoint responds_before_removal (t : list Event) : bool :=
  match t with
  | [] => true
  | ev :: t' =>
      if is_remove ev then forallb (fun ev' => negb (is_respond ev')) t'
      else responds_before_removal t'
  end.

(** A request that carries none of the four overrides. *)
Definition no_overrides (body : Request) : bool :=
  bool_decide (req_timeout body = None /\ req_memory body = None
               /\ req_cpuPeriod body = None /\ req_cpuQuota body = None).

(** An engine that cannot create a container. *)
Definition failing_env (e : JsError) : Env :=
  {| uuidv4 := lit "00000000-0000-4000-8000-000000000000";
     createContainer := fun _ => Throw e;
     timer := fires_after_completion;
     elapsed := of_Z 1234 |}.

Definition working_env : Env :=
  example_env (example_container finished_archive) fires_after_completion.

Definition react_options : CreateOptions :=
  container_options (lit "00000000-0000-4000-8000-000000000000") react_source
    react_config (lit "react") react_limits.

(** A container whose build exits with status 2 after one line on stderr. *)
Definition failed_build : Container :=
  {| start := Normal tt; wait := Normal 2%Z;
     logs := Normal (encode [stderr_record "error TS1005"]);
     getArchive := fun _ => finished_archive; remove := Normal tt |}.

(** A container that cannot be started. *)
Definition unstartable (e : JsError) : Container :=
  {| start := Throw e; wait := Normal 0%Z; logs := Normal [];
     getArchive := fun _ => finished_archive; remove := Normal tt |}.

Definition example_put (timeout memory : option Z) : ConfigBody :=
  {| put_memory := (fun z => JNumber (of_Z z)) <$> memory;
     put_cpuPeriod := None;
     put_cpuQuota := None;
     put_timeout := (fun z => JNumber (of_Z z)) <$> timeout |}.

Lemma byte_of_N_to_N n : Byte.to_N (byte_of_N n) = n mod 256.
Proof.
  unfold byte_of_N.
  destruct (Byte.of_N (n mod 256)) as [b|] eqn:E.
  - simpl. by apply Byte.to_of_N.
  - apply Byte.of_N_None_iff in E.
    pose proof (N.mod_upper_bound n 256). lia.
Qed.

(** ** Encodings and their decoders *)



Lemma forall_below_spec bits p : forall prefix n,
  forall_below bits p prefix = true ->
  n < 2 ^ N.of_nat bits ->
  p (prefix * 2 ^ N.of_nat bits + n) = true.
Proof.
  induction bits as [|b IH]; intros prefix n Hall Hn.
  - cbn in Hn. assert (n = 0) as -> by lia. cbn [forall_below] in Hall.
    by rewrite N.pow_0_r, N.mul_1_r, N.add_0_r.
  - cbn [forall_below] in Hall. apply andb_prop in Hall as [H0 H1].
    replace (N.of_nat (S b)) with (N.succ (N.of_nat b)) in * by lia.
    rewrite N.pow_succ_r' in *.
    destruct (N.ltb_spec n (2 ^ N.of_nat b)) as [Hlo|Hhi].
    + replace (prefix * (2 * 2 ^ N.of_nat b) + n)
        with (2 * prefix * 2 ^ N.of_nat b + n) by lia.
      by apply IH.
    + replace (prefix * (2 * 2 ^ N.of_nat b) + n)
        with ((2 * prefix + 1) * 2 ^ N.of_nat b + (n - 2 ^ N.of_nat b)) by lia.
      apply IH; [done | lia].
Qed.

Lemma forall_below_0 bits p n :
  forall_below bits p 0 = true -> n < 2 ^ N.of_nat bits -> p n = true.
Proof. intros Hall Hn. by apply (forall_below_spec bits p 0 n). Qed.

Lemma bmp_all : forall_below 16 bmp_ok 0 = true.
Proof. vm_compute. reflexivity. Qed.

(** Bits that do not overlap add up. *)
Lemma lor_shiftl_add a k x : x < 2 ^ k -> N.lor (N.shiftl a k) x = a * 2 ^ k + x.
Proof.
  intros Hx.
  assert (N.land (N.shiftl a k) x = 0) as Hdisjoint.
  { apply N.bits_inj_0. intros m. rewrite N.land_spec.
    destruct (N.ltb_spec m k) as [Hlt|Hge].
    - by rewrite N.shiftl_spec_low.
    - assert (N.testbit x m = false) as ->; [|apply andb_false_r].
      destruct (N.eq_dec x 0) as [->|Hx0]; [apply N.bits_0|].
      apply N.bits_above_log2. apply N.log2_lt_pow2; [lia|].
      eapply N.lt_le_trans; [exact Hx|]. by apply N.pow_le_mono_r. }
  rewrite <- N.lxor_lor by done. rewrite <- N.add_nocarry_lxor by done.
  by rewrite N.shiftl_mul_pow2.
Qed.

Lemma land_low n k : N.land n (2 ^ k - 1) = n mod 2 ^ k.
Proof.
  rewrite <- N.land_ones. f_equal. rewrite N.ones_equiv. lia.
Qed.

Ltac div_mod := zify; Z.to_euclidean_division_equations; lia.







(** *** UTF-8 *)

Lemma utf8_decode_from_app bytes : forall st rest,
  utf8_decode_from st (bytes ++ rest)
  = fst (utf8_steps st bytes) ++ utf8_decode_from (snd (utf8_steps st bytes)) rest.
Proof.
  induction bytes as [|b bytes IH]; intros st rest; [reflexivity|].
  cbn [app utf8_decode_from utf8_steps fst snd]. by rewrite IH, app_assoc.
Qed.

Lemma utf8_steps_bmp c :
  c < 65536 -> is_high_surrogate c = false -> is_low_surrogate c = false ->
  utf8_steps None (utf8_code_point c) = ([c], None).
Proof.
  intros Hc Hhi Hlo.
  pose proof (forall_below_0 16 bmp_ok c bmp_all Hc) as Hok.
  unfold bmp_ok in Hok. rewrite Hhi, Hlo in Hok. cbn [orb] in Hok.
  destruct (utf8_steps None (utf8_code_point c)) as [[|c' [|? ?]] [p|]]; try discriminate.
  by apply N.eqb_eq in Hok as ->.
Qed.

Lemma utf8_step_continue bits n lower upper v :
  v < 64 -> lower <= 128 + v <= upper ->
  utf8_step (Some {| utf8_bits := bits; utf8_needed := n;
                     utf8_lower := lower; utf8_upper := upper |}) (128 + v)
  = match n with
    | S (S m) => ([], Some {| utf8_bits := bits * 64 + v; utf8_needed := S m;
                              utf8_lower := 128; utf8_upper := 191 |})
    | _ => (utf16_code_units (bits * 64 + v), None)
    end.
Proof.
  intros Hv [Hl Hu]. unfold utf8_step. cbn [utf8_lower utf8_upper utf8_bits utf8_needed].
  assert ((lower <=? 128 + v) && (128 + v <=? upper) = true) as ->.
  { apply andb_true_iff. split; by apply N.leb_le. }
  change 63 with (2 ^ 6 - 1). rewrite land_low.
  rewrite (lor_shiftl_add bits 6) by (apply N.mod_upper_bound; by apply N.pow_nonzero).
  change (2 ^ 6) with 64.
  by replace ((128 + v) mod 64) with v by div_mod.
Qed.

Lemma utf8_steps_pair hi lo :
  is_high_surrogate hi = true -> is_low_surrogate lo = true ->
  utf8_steps None (utf8_code_point (65536 + N.shiftl (hi - 55296) 10 + (lo - 56320)))
  = ([hi; lo], None).
Proof.
  unfold is_high_surrogate, is_low_surrogate.
  rewrite !andb_true_iff, !N.leb_le. intros [Hh1 Hh2] [Hl1 Hl2].
  rewrite N.shiftl_mul_pow2. change (2 ^ 10) with 1024.
  set (cp := 65536 + (hi - 55296) * 1024 + (lo - 56320)).
  assert (65536 <= cp < 1114112) as Hcp by (subst cp; lia).
  unfold utf8_code_point.
  destruct (N.ltb_spec cp 128); [lia|]. destruct (N.ltb_spec cp 2048); [lia|].
  destruct (N.ltb_spec cp 65536); [lia|].
  cbn [utf8_steps]. rewrite !byte_of_N_to_N.
  change 63 with (2 ^ 6 - 1). rewrite !land_low, !N.shiftr_div_pow2.
  change 240 with (N.shiftl 15 4). change 128 with (N.shiftl 1 7).
  change (2 ^ 6) with 64. change (2 ^ 18) with 262144. change (2 ^ 12) with 4096.
  rewrite (lor_shiftl_add 15 4) by (change (2 ^ 4) with 16; div_mod).
  rewrite !(lor_shiftl_add 1 7) by (change (2 ^ 7) with 128; div_mod).
  change (15 * 2 ^ 4) with 240. change (1 * 2 ^ 7) with 128.
  set (a := cp / 262144). set (b := (cp / 4096) mod 64).
  set (c := (cp / 64) mod 64). set (d := cp mod 64).
  assert (a < 5 /\ b < 64 /\ c < 64 /\ d < 64) as (Ha & Hb & Hc & Hd) by (subst a b c d; div_mod).
  rewrite !N.mod_small by lia.
  assert (utf8_step None (240 + a)
          = ([], Some {| utf8_bits := a; utf8_needed := 3;
                         utf8_lower := if a =? 0 then 144 else 128;
                         utf8_upper := if a =? 4 then 143 else 191 |})) as ->.
  { assert (a = 0 \/ a = 1 \/ a = 2 \/ a = 3 \/ a = 4) as Hcase by lia.
    destruct Hcase as [->|[->|[->|[->| ->]]]]; reflexivity. }
  cbn [fst snd].
  rewrite utf8_step_continue; [|done|].
  2: { destruct (N.eqb_spec a 0), (N.eqb_spec a 4); subst a b; div_mod. }
  cbn [fst snd]. rewrite utf8_step_continue by lia. cbn [fst snd].
  rewrite utf8_step_continue by lia. cbn [fst snd app].
  f_equal. unfold utf16_code_units.
  replace ((a * 64 + b) * 64 + c) with (cp / 64) by (subst a b c; div_mod).
  replace (cp / 64 * 64 + d) with cp by (subst d; div_mod).
  destruct (N.ltb_spec cp 65536); [lia|].
  change 1023 with (2 ^ 10 - 1). rewrite land_low, N.shiftr_div_pow2.
  change (2 ^ 10) with 1024.
  replace (55296 + (cp - 65536) / 1024) with hi by (subst cp; div_mod).
  replace (56320 + (cp - 65536) mod 1024) with lo by (subst cp; div_mod).
  reflexivity.
Qed.

Lemma utf8_decode_from_encode : forall s,
  well_formed s = true -> utf8_decode_from None (Buffer_from s) = s.
Proof.
  fix IH 1. intros [|c rest]; [reflexivity|].
  cbn [well_formed Buffer_from].
  destruct (is_high_surrogate c) eqn:Hhi.
  - destruct rest as [|lo rest]; [discriminate|].
    intros [Hlo Hwf]%andb_prop. rewrite Hlo.
    rewrite utf8_decode_from_app, utf8_steps_pair by done.
    cbn [fst snd app]. by rewrite IH.
  - intros [[Hlo Hc]%andb_prop Hwf]%andb_prop.
    apply negb_true_iff in Hlo. rewrite Hlo. apply N.ltb_lt in Hc.
    rewrite utf8_decode_from_app, utf8_steps_bmp by done.
    cbn [fst snd app]. by rewrite IH.
Qed.

Lemma Buffer_from_app : forall s t,
  well_formed s = true -> Buffer_from (s ++ t) = Buffer_from s ++ Buffer_from t.
Proof.
  fix IH 1. intros [|c rest] t; [reflexivity|].
  cbn [well_formed Buffer_from app].
  destruct (is_high_surrogate c) eqn:Hhi.
  - destruct rest as [|lo rest]; [discriminate|].
    intros [Hlo Hwf]%andb_prop. cbn [app]. rewrite Hlo.
    rewrite IH by done. by rewrite app_assoc.
  - intros [[Hlo Hc]%andb_prop Hwf]%andb_prop.
    apply negb_true_iff in Hlo. rewrite Hlo.
    rewrite IH by done. by rewrite app_assoc.
Qed.

Lemma well_formed_app : forall s t,
  well_formed s = true -> well_formed t = true -> well_formed (s ++ t) = true.
Proof.
  fix IH 1. intros [|c rest] t; [done|].
  cbn [well_formed app].
  destruct (is_high_surrogate c) eqn:Hhi.
  - destruct rest as [|lo rest]; [discriminate|].
    intros [Hlo Hwf]%andb_prop Ht. cbn [app]. rewrite Hlo. cbn [andb]. by apply IH.
  - intros [Hc Hwf]%andb_prop Ht. rewrite Hc. cbn [andb]. by apply IH.
Qed.

Lemma utf8_decode_encode s : well_formed s = true -> utf8_decode (Buffer_from s) = s.
Proof. apply utf8_decode_from_encode. Qed.

Lemma uint32_digits n :
  n < 4294967296 ->
  (n / 16777216) mod 256 * 16777216 + (n / 65536) mod 256 * 65536
  + (n / 256) mod 256 * 256 + n mod 256 = n.
Proof.
  intros Hn.
  zify. Z.to_euclidean_division_equations. lia.
Qed.

(** ** The demultiplexer on framed records *)

Section Demux.
Context `{JsRuntime}.

Lemma frame_length r : length (frame r) = (8 + length (payload r))%nat.
Proof. unfold frame. destruct (reserved r) as [[r1 r2] r3]. reflexivity. Qed.

Lemma Buffer_length_app a b : Buffer_length (a ++ b) = Buffer_length a + Buffer_length b.
Proof. unfold Buffer_length. rewrite length_app. lia. Qed.

Lemma encode_cons r rs : encode (r :: rs) = frame r ++ encode rs.
Proof. reflexivity. Qed.

Lemma encode_length rs : (length rs <= length (encode rs))%nat.
Proof.
  induction rs as [|r rs IH]; [done|].
  rewrite encode_cons, length_app, frame_length. simpl. lia.
Qed.

Lemma readUInt32BE_frame pre r tl :
  fits_uint32 r ->
  readUInt32BE (pre ++ frame r ++ tl) (Buffer_length pre + 4)
  = Normal (Buffer_length (payload r)).
Proof.
  intros Hfit. unfold readUInt32BE, Buffer_length at 1.
  replace (N.to_nat (N.of_nat (length pre) + 4)) with (length pre + 4)%nat by lia.
  rewrite drop_app_add. unfold frame. destruct (reserved r) as [[r1 r2] r3].
  cbn [app drop uint32BE]. rewrite !byte_of_N_to_N.
  f_equal. apply uint32_digits, Hfit.
Qed.

Lemma slice_frame pre r tl :
  slice (pre ++ frame r ++ tl) (Buffer_length pre + 8)
    (Buffer_length pre + 8 + Buffer_length (payload r)) = payload r.
Proof.
  unfold slice, Buffer_length.
  replace (N.to_nat (N.of_nat (length pre) + 8)) with (length pre + 8)%nat by lia.
  replace (N.to_nat _) with (length (payload r)) by lia.
  rewrite drop_app_add. unfold frame. destruct (reserved r) as [[r1 r2] r3].
  cbn [app drop uint32BE]. apply take_app_length.
Qed.

(** One turn of the loop on a whole frame. *)
Lemma demux_loop_frame fuel pre r tl acc :
  fits_uint32 r ->
  demux_loop (S fuel) (pre ++ frame r ++ tl) (Buffer_length pre) acc
  = demux_loop fuel (pre ++ frame r ++ tl) (Buffer_length (pre ++ frame r))
      (acc ++ utf8_toString (payload r)).
Proof.
  intros Hfit. cbn [demux_loop].
  assert ((Buffer_length pre <? Buffer_length (pre ++ frame r ++ tl)) = true) as ->.
  { apply N.ltb_lt. rewrite !Buffer_length_app. unfold Buffer_length.
    rewrite frame_length. lia. }
  rewrite readUInt32BE_frame by done. rewrite slice_frame.
  f_equal. rewrite Buffer_length_app. unfold Buffer_length. rewrite frame_length. lia.
Qed.

Lemma demux_loop_records rs : forall fuel pre tl acc,
  Forall fits_uint32 rs ->
  demux_loop (length rs + fuel) (pre ++ encode rs ++ tl) (Buffer_length pre) acc
  = demux_loop fuel (pre ++ encode rs ++ tl) (Buffer_length (pre ++ encode rs))
      (acc ++ decoded_records rs).
Proof.
  induction rs as [|r rs IH]; intros fuel pre tl acc Hfit.
  - unfold decoded_records. simpl. by rewrite !app_nil_r.
  - apply Forall_cons in Hfit as [Hr Hrs].
    rewrite encode_cons. cbn [length Nat.add].
    rewrite <- (app_assoc (frame r)). rewrite demux_loop_frame by done.
    specialize (IH fuel (pre ++ frame r) tl (acc ++ utf8_toString (payload r)) Hrs).
    rewrite <- !app_assoc in IH. rewrite IH.
    reflexivity.
Qed.

Lemma demux_loop_end fuel buf acc :
  demux_loop (S fuel) buf (Buffer_length buf) acc = Some (Normal acc).
Proof. cbn [demux_loop]. by rewrite N.ltb_irrefl. Qed.

(** One turn of the loop on fewer than 8 remaining bytes. *)
Lemma demux_loop_short_header fuel pre tl acc :
  (0 < length tl < 8)%nat ->
  demux_loop (S fuel) (pre ++ tl) (Buffer_length pre) acc
  = Some (Throw {| error_name := RangeError;
                   message := out_of_range_message (Buffer_length pre + 4)
                                (Buffer_length (pre ++ tl)) |}).
Proof.
  intros Hlen. cbn [demux_loop].
  assert ((Buffer_length pre <? Buffer_length (pre ++ tl)) = true) as ->.
  { apply N.ltb_lt. rewrite Buffer_length_app. unfold Buffer_length. lia. }
  unfold readUInt32BE, Buffer_length at 1.
  replace (N.to_nat (N.of_nat (length pre) + 4)) with (length pre + 4)%nat by lia.
  rewrite drop_app_add.
  destruct tl as [|t0 [|t1 [|t2 [|t3 [|t4 [|t5 [|t6 [|t7 tl]]]]]]]];
    simpl in Hlen; try lia; reflexivity.
Qed.

(** The loop ends within the fuel that [demux] gives it. *)
Lemma demux_loop_terminates fuel : forall buf offset acc,
  (length buf - N.to_nat offset < fuel)%nat ->
  is_Some (demux_loop fuel buf offset acc).
Proof.
  induction fuel as [|fuel IH]; intros buf offset acc Hfuel; [lia|].
  cbn [demux_loop].
  destruct (offset <? Buffer_length buf) eqn:Hlt; [|by eexists].
  apply N.ltb_lt in Hlt. unfold Buffer_length in Hlt.
  destruct (readUInt32BE buf (offset + 4)) as [n|e]; [|by eexists].
  apply IH. lia.
Qed.

Lemma demux_terminates buf : is_Some (demux buf).
Proof. apply demux_loop_terminates. unfold demux_fuel. lia. Qed.

Lemma demux_result_spec buf r : demux buf = Some r -> demux_result buf = r.
Proof. unfold demux_result. by intros ->. Qed.

(** [demux_result] is what the loop ends with. *)
Lemma demux_result_total buf : demux buf = Some (demux_result buf).
Proof.
  destruct (demux_terminates buf) as [r Hr].
  by rewrite (demux_result_spec _ _ Hr).
Qed.

End Demux.

Section DemuxClaims.
Context `{JsRuntime}.

(** The loop on whole records: the payloads, each decoded on its own. *)
Lemma demux_records rs :
  Forall fits_uint32 rs -> demux (encode rs) = Some (Normal (decoded_records rs)).
Proof.
  intros Hfit. unfold demux, demux_fuel.
  pose proof (encode_length rs) as Hlen.
  replace (S (length (encode rs)))
    with (length rs + S (length (encode rs) - length rs))%nat by lia.
  pose proof (demux_loop_records rs (S (length (encode rs) - length rs)) [] [] [] Hfit) as E.
  rewrite !app_nil_r in E. etrans; [exact E|].
  apply demux_loop_end.
Qed.

(** Payloads that each hold a whole text: their concatenation is the
    encoding of the concatenated texts. *)
Lemma whole_payloads rs : forall texts,
  Forall2 (fun r text => payload r = Buffer_from text /\ well_formed text = true) rs texts ->
  concat (map payload rs) = Buffer_from (concat texts)
  /\ well_formed (concat texts) = true
  /\ map payload rs = map Buffer_from texts
  /\ Forall (fun text => well_formed text = true) texts.
Proof.
  induction rs as [|r rs IH]; intros texts Hall.
  - apply Forall2_nil_inv_l in Hall as ->. by repeat split.
  - apply Forall2_cons_inv_l in Hall as (text & texts' & [Hp Hwf] & Hall & ->).
    destruct (IH texts' Hall) as (Hcat & Hwfs & Hmap & Hforall).
    cbn [map concat]. rewrite Hp, Hcat, Hmap.
    split; [by rewrite Buffer_from_app|]. split; [by apply well_formed_app|].
    split; [done | by constructor].
Qed.

(** C8, as the code has it. For records whose payloads each hold a whole
    text (the payload is the UTF-8 encoding of a well-formed string), and a
    runtime that decodes the encoding of a text to that text: decoding the
    concatenation of the framed records (8-byte header: tag, three reserved
    bytes, big-endian 32-bit payload length; then the payload) gives the
    concatenated payload decoded as one text, which is the texts in their
    order; this holds for any number of records, for empty payloads and
    for every tag, and the loop ends within its fuel. *)
Theorem demux_roundtrip (rs : list LogRecord) (texts : list jsstring) :
  (forall s, well_formed s = true -> utf8_toString (Buffer_from s) = s) ->
  Forall fits_uint32 rs ->
  Forall2 (fun r text => payload r = Buffer_from text /\ well_formed text = true) rs texts ->
  demux (encode rs) = Some (Normal (transcript rs))
  /\ demux_result (encode rs) = Normal (transcript rs)
  /\ transcript rs = concat texts.
Proof.
  intros Hdecode Hfit Hwhole.
  destruct (whole_payloads rs texts Hwhole) as (Hcat & Hwf & Hmap & Hall).
  assert (transcript rs = concat texts) as Ht.
  { unfold transcript. by rewrite Hcat, Hdecode. }
  assert (decoded_records rs = concat texts) as Hd.
  { unfold decoded_records. rewrite <- (map_map payload utf8_toString), Hmap. f_equal.
    clear Hwhole Hcat Hwf Hmap Ht. induction Hall as [|text texts' Hwf Hall IH]; [done|].
    cbn [map]. by rewrite IH, Hdecode. }
  assert (demux (encode rs) = Some (Normal (transcript rs))) as Hdemux.
  { rewrite (demux_records rs Hfit). by rewrite Hd, Ht. }
  split; [exact Hdemux|]. split; [by apply demux_result_spec | exact Ht].
Qed.

(** X22. On records whose payloads are any bytes, the loop ends within its
    fuel with the concatenation, in order, of the payloads each decoded on
    its own, whatever the tags and the reserved bytes. *)
Theorem demux_decodes_each_record (rs : list LogRecord) :
  Forall fits_uint32 rs ->
  demux (encode rs) = Some (Normal (decoded_records rs))
  /\ demux_result (encode rs) = Normal (decoded_records rs).
Proof.
  intros Hfit. pose proof (demux_records rs Hfit) as Hd.
  split; [exact Hd | by apply demux_result_spec].
Qed.

(** C5, as the code has it. When the buffer ends with 1 to 7 bytes after
    the last whole record, the read of the length field is out of range: the
    loop throws a RangeError, and [waitForCompletion] resolves with
    [success: false], the message of that error and empty logs; the text
    decoded so far is dropped. *)
Theorem demux_incomplete_header (rs : list LogRecord) (tl : Buffer) (StatusCode : Z) :
  Forall fits_uint32 rs ->
  (0 < length tl < 8)%nat ->
  let e := {| error_name := RangeError;
              message := out_of_range_message (Buffer_length (encode rs) + 4)
                           (Buffer_length (encode rs ++ tl)) |} in
  demux (encode rs ++ tl) = Some (Throw e)
  /\ completion_result StatusCode (encode rs ++ tl)
     = {| result_success := false; result_error := Some (message e); result_logs := [] |}.
Proof.
  intros Hfit Htl e.
  assert (demux (encode rs ++ tl) = Some (Throw e)) as Hd.
  { unfold demux, demux_fuel.
    pose proof (encode_length rs) as Hlen.
    replace (S (length (encode rs ++ tl)))
      with (length rs + S (length (encode rs ++ tl) - length rs))%nat
      by (rewrite length_app; lia).
    pose proof (demux_loop_records rs (S (length (encode rs ++ tl) - length rs)) [] tl [] Hfit) as E.
    etrans; [exact E|].
    by apply (demux_loop_short_header _ (encode rs) tl). }
  split; [exact Hd|].
  unfold completion_result. by rewrite (demux_result_spec _ _ Hd).
Qed.

End DemuxClaims.

Lemma demux_roundtrip_witness :
  Forall fits_uint32 [text_record x01 (lit "caf" ++ [233]); text_record x02 [];
                      text_record x00 [8364; 55357; 56832]]
  /\ demux (encode [text_record x01 (lit "caf" ++ [233]); text_record x02 [];
                    text_record x00 [8364; 55357; 56832]])
     = Some (Normal (lit "caf" ++ [233; 8364; 55357; 56832])).
Proof.
  split.
  - repeat constructor.
  - refine (proj1 (demux_roundtrip
      [text_record x01 (lit "caf" ++ [233]); text_record x02 [];
       text_record x00 [8364; 55357; 56832]]
      [lit "caf" ++ [233]; []; [8364; 55357; 56832]] _ _ _)).
    + exact utf8_decode_encode.
    + repeat constructor.
    + repeat constructor.
Defined.

(** C8 fails as stated: the two bytes of one character, split over two
    records.  The concatenated payload is the text [A], e with an acute
    accent, [B]; the loop decodes each payload on its own and gives two
    replacement characters in place of the accented letter. *)
Lemma demux_splits_characters :
  Forall fits_uint32 [split_head; split_tail]
  /\ concat (map payload [split_head; split_tail]) = Buffer_from [65; 233; 66]
  /\ transcript [split_head; split_tail] = [65; 233; 66]
  /\ demux (encode [split_head; split_tail]) = Some (Normal [65; 65533; 65533; 66])
  /\ demux (encode [split_head; split_tail])
     <> Some (Normal (transcript [split_head; split_tail])).
Proof.
  split; [repeat constructor|]. split; [reflexivity|]. split; [reflexivity|].
  split; [reflexivity | discriminate].
Qed.

Lemma demux_decodes_each_record_witness :
  Forall fits_uint32 [split_head; stderr_record "warn"; split_tail]
  /\ demux (encode [split_head; stderr_record "warn"; split_tail])
     = Some (Normal ([65; 65533] ++ lit "warn" ++ [65533; 66])).
Proof.
  split.
  - repeat constructor.
  - refine (proj1 (demux_decodes_each_record
      [split_head; stderr_record "warn"; split_tail] _)).
    repeat constructor.
Defined.

Lemma demux_incomplete_header_witness :
  demux (encode [stdout_record "hi"] ++ [x01; x00; x00])
  = Some (Throw {| error_name := RangeError;
                   message := lit "The value of " ++ dquote ++ lit "offset" ++ dquote
                     ++ lit " is out of range. It must be >= 0 and <= 9. Received 14" |}).
Proof.
  refine (proj1 (demux_incomplete_header [stdout_record "hi"] [x01; x00; x00] 0%Z _ _)).
  - repeat constructor.
  - simpl. lia.
Defined.

(** C5 fails as stated: after one whole record that decodes to [hi], three
    trailing bytes make the demultiplexer throw, and the result of
    [waitForCompletion] carries no transcript. *)
Lemma demux_trailing_bytes_counterexample :
  transcript [stdout_record "hi"] = lit "hi"
  /\ (exists e, demux (encode [stdout_record "hi"] ++ [x01; x00; x00]) = Some (Throw e)
               /\ error_name e = RangeError)
  /\ result_success (completion_result 0 (encode [stdout_record "hi"] ++ [x01; x00; x00])) = false
  /\ result_logs (completion_result 0 (encode [stdout_record "hi"] ++ [x01; x00; x00])) = [].
Proof.
  split; [reflexivity|]. split; [|split; reflexivity].
  eexists. split; reflexivity.
Qed.

(** ** The source normalizer *)

Lemma search_None pat s : matches_nowhere pat s = true -> search pat s = None.
Proof.
  unfold matches_nowhere.
  induction s as [|c s IH]; cbn [suffixes forallb search]; intros Hm;
    apply andb_prop in Hm as [Hhd Htl];
    apply negb_true_iff, bool_decide_eq_false in Hhd;
    destruct (match_here pat _) as [n|]; try (exfalso; apply Hhd; by eexists).
  - reflexivity.
  - by rewrite IH.
Qed.

Lemma replace_first_no_match pat repl s :
  matches_nowhere pat s = true -> replace_first pat repl s = s.
Proof. intros Hm. unfold replace_first. by rewrite search_None. Qed.

Lemma replace_first_canonical pat repl s :
  canonical_first pat repl s = true -> replace_first pat repl s = s.
Proof.
  unfold canonical_first, replace_first.
  destruct (search pat s) as [[i n]|]; [|done].
  intros Heq. apply bool_decide_eq_true in Heq. rewrite <- Heq.
  rewrite <- drop_drop, take_drop. apply take_drop.
Qed.

Lemma replace_all_no_match pat repl s :
  matches_nowhere pat s = true -> replace_all pat repl s = s.
Proof.
  unfold matches_nowhere, replace_all.
  induction s as [|c s IH]; cbn [suffixes forallb replace_all_from]; intros Hm;
    apply andb_prop in Hm as [Hhd Htl];
    apply negb_true_iff, bool_decide_eq_false in Hhd;
    destruct (match_here pat _) as [n|]; try (exfalso; apply Hhd; by eexists).
  - reflexivity.
  - by rewrite IH.
Qed.

Lemma prepareAngularCode_fixpoint code :
  normalized code = true -> prepareAngularCode code = code.
Proof.
  intros Hn. unfold normalized in Hn.
  repeat (apply andb_prop in Hn as [Hn ?]).
  unfold prepareAngularCode.
  assert (ensure_import code = code) as -> by (unfold ensure_import; by rewrite Hn).
  assert (force_selector code = code) as -> by by apply replace_first_canonical.
  assert (force_class code = code) as -> by by apply replace_first_canonical.
  assert (force_standalone code = code) as ->.
  { unfold force_standalone.
    destruct (includes (lit "standalone:") code); [done|].
    by apply replace_first_no_match. }
  assert (strip_templateUrl code = code) as -> by by apply replace_all_no_match.
  assert (strip_styleUrls code = code) as -> by by apply replace_all_no_match.
  by apply replace_all_no_match.
Qed.

(** C7, as the code has it. Each rewrite leaves the text unchanged when its
    pattern matches nowhere (and the import step when the import is
    referenced); [prepareAngularCode] leaves already-normalized source
    unchanged, so a second application to it yields what the first did. *)
Theorem prepareAngularCode_normalized_fixpoint :
  (forall code, includes (lit "@angular/common") code = true -> ensure_import code = code)
  /\ (forall code, matches_nowhere selector_re code = true -> force_selector code = code)
  /\ (forall code, matches_nowhere class_re code = true -> force_class code = code)
  /\ (forall code, matches_nowhere component_re code = true -> force_standalone code = code)
  /\ (forall code, matches_nowhere templateUrl_re code = true -> strip_templateUrl code = code)
  /\ (forall code, matches_nowhere styleUrls_re code = true -> strip_styleUrls code = code)
  /\ (forall code, matches_nowhere styleUrl_re code = true -> strip_styleUrl code = code)
  /\ (forall code, normalized code = true ->
        prepareAngularCode code = code
        /\ prepareAngularCode (prepareAngularCode code) = prepareAngularCode code).
Proof.
  split; [|split; [|split; [|split; [|split; [|split; [|split]]]]]].
  - intros code Hc. unfold ensure_import. by rewrite Hc.
  - intros code. apply replace_first_no_match.
  - intros code. apply replace_first_no_match.
  - intros code Hm. unfold force_standalone.
    destruct (negb _); [by apply replace_first_no_match | done].
  - intros code. apply replace_all_no_match.
  - intros code. apply replace_all_no_match.
  - intros code. apply replace_all_no_match.
  - intros code Hn. rewrite !(prepareAngularCode_fixpoint code Hn). done.
Qed.

Lemma prepareAngularCode_normalized_fixpoint_witness :
  normalized normalized_example = true
  /\ prepareAngularCode (prepareAngularCode normalized_example)
     = prepareAngularCode normalized_example
  /\ matches_nowhere styleUrl_re (lit "template: 'hi'") = true
  /\ strip_styleUrl (lit "template: 'hi'") = lit "template: 'hi'".
Proof.
  destruct prepareAngularCode_normalized_fixpoint
    as (_ & _ & _ & _ & _ & _ & Hstrip & Hfix).
  split; [reflexivity|]. split; [|split; [reflexivity|]].
  - apply (Hfix normalized_example). reflexivity.
  - apply (Hstrip (lit "template: 'hi'")). reflexivity.
Defined.

(** C7 fails as stated: stripping the [templateUrl] field removes the only
    reference to the import, so a second application adds the import line
    that the first one did not. *)
Lemma prepareAngularCode_not_idempotent :
  prepareAngularCode (lit "templateUrl:@angular/common,") = []
  /\ prepareAngularCode (prepareAngularCode (lit "templateUrl:@angular/common,"))
     = common_import
  /\ prepareAngularCode (prepareAngularCode (lit "templateUrl:@angular/common,"))
     <> prepareAngularCode (lit "templateUrl:@angular/common,").
Proof. split; [reflexivity|]. split; [reflexivity|]. discriminate. Qed.

(** ** The encoded source *)




Section Encoding.
Context `{JsRuntime}.


End Encoding.


(** ** The artifact collector *)

Lemma starts_with_spec p : forall s, starts_with p s = true <-> exists t, s = p ++ t.
Proof.
  induction p as [|a p IH]; intros s; cbn [starts_with].
  - split; [intros _; by exists s | done].
  - destruct s as [|b s].
    + split; [done | intros [t Ht]; discriminate].
    + rewrite andb_true_iff, N.eqb_eq, IH. split.
      * intros [-> [t ->]]. by exists t.
      * intros [t Ht]. injection Ht as -> ->. split; [done | by exists t].
Qed.

Lemma ends_with_spec p s : ends_with p s = true <-> exists stem, s = stem ++ p.
Proof.
  unfold ends_with. rewrite starts_with_spec. split.
  - intros [t Ht]. exists (rev t).
    rewrite <- (rev_involutive s), Ht, rev_app_distr. by rewrite rev_involutive.
  - intros [stem ->]. exists (rev stem). by rewrite rev_app_distr.
Qed.

Lemma test_extension_spec k :
  test_extension k = true
  <-> exists stem ext, ext ∈ output_extensions /\ k = stem ++ ext.
Proof.
  unfold test_extension. rewrite existsb_exists. split.
  - intros (ext & Hin & He). apply ends_with_spec in He as [stem ->].
    exists stem, ext. split; [by apply list_elem_of_In | done].
  - intros (stem & ext & Hin & ->). exists ext.
    split; [by apply list_elem_of_In | apply ends_with_spec; by exists stem].
Qed.

Lemma split_nonempty sep s : split sep s <> [].
Proof. destruct s as [|c s]; cbn [split]; [done|]. repeat case_match; done. Qed.

Lemma pop_cons seg segs : segs <> [] -> pop (seg :: segs) = pop segs.
Proof. unfold pop. by destruct segs. Qed.





Section Collector.
Context `{JsRuntime}.

Lemma kept_retained e : kept e = true <-> retained e.
Proof.
  unfold kept, retained. rewrite andb_true_iff, test_extension_spec.
  destruct (header_type e); simpl; split; intros [Ht He]; try discriminate; done.
Qed.

Lemma collect_snoc es e : collect (es ++ [e]) = on_entry (collect es) e.
Proof. unfold collect. by rewrite fold_left_app. Qed.

Lemma on_entry_lookup files e k :
  on_entry files e !! k
  = if decide (kept e = true /\ basename (header_name e) = k)
    then Some (content e) else files !! k.
Proof.
  unfold on_entry. fold (kept e).
  destruct (kept e) eqn:Hk.
  - destruct (decide (basename (header_name e) = k)) as [->|Hne].
    + rewrite lookup_insert_eq. by rewrite decide_True.
    + rewrite lookup_insert_ne by done. rewrite decide_False; [done | by intros [_ ?]].
  - rewrite decide_False; [done | by intros [? _]].
Qed.

(** Last wins: the value under [k] is the text of the last kept entry whose
    base name is [k]. *)
Lemma collect_lookup es k :
  collect es !! k
  = content <$> last (filter (fun e => kept e = true /\ basename (header_name e) = k) es).
Proof.
  induction es as [|e es IH] using rev_ind; [done|].
  rewrite collect_snoc, on_entry_lookup, filter_app.
  case_decide as Hd.
  - rewrite filter_cons_True, filter_nil by done. by rewrite last_snoc.
  - rewrite filter_cons_False, filter_nil, app_nil_r by done. apply IH.
Qed.

Lemma collect_is_Some es k :
  is_Some (collect es !! k)
  <-> exists e, e ∈ es /\ retained e /\ basename (header_name e) = k.
Proof.
  rewrite collect_lookup, fmap_is_Some, last_is_Some. split.
  - intros Hne. destruct (filter _ es) as [|e l] eqn:E; [done|].
    assert (e ∈ filter (fun e => kept e = true /\ basename (header_name e) = k) es)
      as Hin by (rewrite E; left).
    apply list_elem_of_filter in Hin as [[Hk Hb] Hin].
    exists e. by rewrite <- kept_retained.
  - intros (e & Hin & Hr & Hb) Hnil.
    assert (e ∈ filter (fun e => kept e = true /\ basename (header_name e) = k) es)
      as Hf by (apply list_elem_of_filter; by rewrite kept_retained).
    rewrite Hnil in Hf. by apply elem_of_nil in Hf.
Qed.

End Collector.

Section CollectorClaims.
Context `{JsRuntime}.


End CollectorClaims.


(** ** The job controller *)

Ltac exec :=
  cbv [compile_guarded try_finally try_catch compile_try compile_catch
    compile_finally createCompilationContainer waitForCompletion
    extractCompiledFiles respond bind ret emit await throw uncaught exited
    set_container get_container initial_state with_remove container_with_remove
    timeout_result thrown_result] in *;
  cbn [events container fst snd app start wait logs getArchive remove
       createContainer timer elapsed uuidv4 result_success result_logs
       result_error negb existsb is_uncaught orb] in *.

Ltac case_step :=
  match goal with
  | |- context [match ?x with _ => _ end] =>
      lazymatch x with
      | context [match _ with _ => _ end] => fail
      | _ => destruct x eqn:?
      end
  end.

Ltac run_handler := exec; repeat (case_step; exec).

Ltac observe :=
  cbv [removals created_containers created_by responses response_of is_remove
       omap list_omap List.filter length] in *;
  cbn [events container fst snd app] in *;
  repeat match goal with
         | H : createContainer _ _ = _ |- _ => rewrite H in *
         end.

Ltac elem_of_inv H :=
  repeat (apply elem_of_cons in H as [H|H]; [try discriminate H|]);
  try (by apply elem_of_nil in H).

Ltac elem_of_list := repeat first [apply list_elem_of_here | apply list_elem_of_further].

Section Controller.
Context `{JsRuntime}.

(** The handler is its validation followed by the guarded part. *)
Lemma run_validation g env body :
  run g env body
  = match validation g body with
    | NotAString =>
        (Throw {| error_name := TypeError;
                  message := not_a_function_message (lit "framework.toLowerCase") |}, [])
    | Rejected text => (Normal tt, [Respond BAD_REQUEST (Failure text None)])
    | Accepted framework config code resourceLimits =>
        let out := compile_guarded env (uuidv4 env) code config framework
                     resourceLimits initial_state in
        (fst out, events (snd out))
    end.
Proof.
  unfold run, validation, compile, limits_of.
  repeat case_step; reflexivity.
Qed.

Lemma validation_with_remove r g env body :
  run g (with_remove r env) body
  = match validation g body with
    | Accepted framework config code resourceLimits =>
        let out := compile_guarded (with_remove r env) (uuidv4 env) code config
                     framework resourceLimits initial_state in
        (fst out, events (snd out))
    | _ => run g env body
    end.
Proof.
  rewrite !run_validation. by destruct (validation g body).
Qed.

(** The guarded part when no stream error goes uncaught: the handler
    completes, after one response and the removal of what it created. *)
Lemma compile_guarded_cleanup env id code config fw rl :
  let out := compile_guarded env id code config fw rl initial_state in
  let t := events (snd out) in
  exited (snd out) = false ->
  fst out = Normal tt
  /\ removals t = length (created_containers env t)
  /\ length (responses t) = 1%nat
  /\ (forall c e, created_containers env t = [c] -> remove c = Throw e ->
        ConsoleError (lit "Cleanup error:") (message e) ∈ t).
Proof.
  run_handler; observe; intros Halive; try discriminate Halive.
  all: split; [done|]; split; [done|]; split; [done|].
  all: intros c' e' [= <-] Hr; try congruence.
  all: match goal with
       | Ht : remove _ = Throw ?e1 |- _ =>
           tryif constr_eq e' e1 then fail else (assert (e' = e1) as -> by congruence)
       end; elem_of_list.
Qed.

(** The guarded part creates at most one container, and only forces
    removals. *)
Lemma compile_guarded_bounds env id code config fw rl :
  let t := events (snd (compile_guarded env id code config fw rl initial_state)) in
  (length (created_containers env t) <= 1)%nat
  /\ (forall force, ContainerRemove force ∈ t -> force = true).
Proof.
  run_handler; observe.
  all: split; [lia|].
  all: intros force Hin; elem_of_inv Hin; by simplify_eq.
Qed.

(** The guarded part when a stream error goes uncaught: the build had
    succeeded, the source stream of the archive emitted the error, and the
    process exits with the container created, not removed, and the request
    not answered. *)
Lemma compile_guarded_exited env id code config fw rl :
  let out := compile_guarded env id code config fw rl initial_state in
  let t := events (snd out) in
  exited (snd out) = true ->
  exists c tarStream e,
    createContainer env (container_options id code config fw rl) = Normal c
    /\ getArchive c (distPath config) = Normal tarStream
    /\ stream_end tarStream = source_error e
    /\ fst out = Throw e
    /\ last t = Some (UncaughtException e)
    /\ created_containers env t = [c]
    /\ removals t = 0%nat
    /\ responses t = [].
Proof.
  run_handler; observe; intros Hexit; try discriminate Hexit.
  by eexists _, _, _.
Qed.

(** A removal is only requested by a handler that has answered. *)
Lemma compile_guarded_removal env id code config fw rl force :
  let out := compile_guarded env id code config fw rl initial_state in
  ContainerRemove force ∈ events (snd out) ->
  exited (snd out) = false.
Proof.
  run_handler; intros Hin; try reflexivity.
  all: elem_of_inv Hin.
Qed.

Lemma compile_guarded_with_remove r env id code config fw rl :
  responses (events (snd (compile_guarded (with_remove r env) id code config fw rl initial_state)))
  = responses (events (snd (compile_guarded env id code config fw rl initial_state))).
Proof.
  exec. destruct (createContainer env _) as [c|e]; exec; [|reflexivity].
  repeat (case_step; exec); reflexivity.
Qed.

(** The guarded part never answers with a bare rejection: its responses are
    a build failure with logs, a success, or an internal error. *)
Lemma compile_guarded_responses env id code config fw rl text :
  (BAD_REQUEST, Failure text None)
  ∉ responses (events (snd (compile_guarded env id code config fw rl initial_state))).
Proof.
  run_handler; observe; intros Hin.
  all: elem_of_inv Hin.
Qed.

(** The responses of the guarded part when the deadline elapses first. *)
Lemma compile_guarded_timeout env id code config fw rl c :
  createContainer env (container_options id code config fw rl) = Normal c ->
  start c = Normal tt ->
  deadline_first env c ->
  let t := events (snd (compile_guarded env id code config fw rl initial_state)) in
  responses t = [(BAD_REQUEST, Failure (build_failed_text fw) (Some []))]
  /\ ContainerGetArchive (distPath config) ∉ t.
Proof.
  intros Hc Hs [Ht|[Ht [st Hw]]]; exec; rewrite Hc; exec; rewrite Hs, Ht; exec;
    rewrite ?Hw; exec.
  all: destruct (remove c); exec; (split; [reflexivity|]).
  all: intros Hin; elem_of_inv Hin.
Qed.

Lemma waitForCompletion_timeout env c s :
  deadline_first env c ->
  fst (waitForCompletion c (timer env) s)
  = Normal {| result_success := false;
              result_error := Some (lit "Compilation timeout");
              result_logs := [] |}.
Proof.
  intros [Ht|[Ht [st Hw]]]; exec; rewrite Ht; exec; [done|]. by rewrite Hw.
Qed.

(** C3, as the code has it. When the deadline elapses first,
    [waitForCompletion] resolves with [success: false], the error
    [Compilation timeout] and empty logs; the handler answers 400 with
    [success: false], the text [<FRAMEWORK> Build Failed] that it also gives
    to a failed build, and empty logs; the archive is not read. *)
Theorem timeout_reported_as_build_failure (g : Globals) (env : Env) (body : Request)
    (framework : jsstring) (config : FrameworkConfig) (code : jsstring)
    (resourceLimits : ResourceLimits) (c : Container) :
  validation g body = Accepted framework config code resourceLimits ->
  createContainer env (container_options (uuidv4 env) code config framework resourceLimits)
    = Normal c ->
  start c = Normal tt ->
  deadline_first env c ->
  (forall s, fst (waitForCompletion c (timer env) s)
             = Normal {| result_success := false;
                         result_error := Some (lit "Compilation timeout");
                         result_logs := [] |})
  /\ responses (trace g env body)
     = [(BAD_REQUEST, Failure (toUpperCase framework ++ lit " Build Failed") (Some []))]
  /\ ContainerGetArchive (distPath config) ∉ trace g env body.
Proof.
  intros Hv Hc Hs Hd. split; [intros s; by apply waitForCompletion_timeout|].
  unfold trace. rewrite run_validation, Hv. cbn [fst snd].
  by apply (compile_guarded_timeout env _ code config framework resourceLimits c).
Qed.

Lemma invalid_override_spec field fallback :
  invalid_override field = true -> invalid_number (override field fallback) = true.
Proof. by destruct field. Qed.

(** C4, as the code has it. With a [framework] that is a string (or
    absent): an invalid [timeout] is always answered 400 with the text that
    names the timeout; an invalid [memory], [cpuPeriod] or [cpuQuota] is always
    answered 400, and no container is created; when the timeout, the
    framework and the code are valid the text is the one that names the three
    limits together. *)
Theorem invalid_override_rejected (g : Globals) (env : Env) (body : Request)
    (framework : jsstring) :
  framework_string body = Some framework ->
  (invalid_override (req_timeout body) = true ->
     run g env body = (Normal tt, [Respond BAD_REQUEST (Failure invalid_timeout_text None)]))
  /\ (invalid_override (req_memory body) || invalid_override (req_cpuPeriod body)
       || invalid_override (req_cpuQuota body) = true ->
       exists text,
         run g env body = (Normal tt, [Respond BAD_REQUEST (Failure text None)])
         /\ (forall config code,
               invalid_number (override (req_timeout body) (DEFAULT_COMPILE_TIMEOUT_MS g)) = false ->
               FRAMEWORKS (toLowerCase framework) = Some config ->
               valid_code (req_code body) = Some code ->
               text = invalid_limits_text))
  /\ includes (lit "timeout") invalid_timeout_text = true
  /\ includes (lit "memory") invalid_limits_text
      && includes (lit "cpuPeriod") invalid_limits_text
      && includes (lit "cpuQuota") invalid_limits_text = true.
Proof.
  intros Hfw. unfold framework_string in Hfw.
  rewrite run_validation. unfold validation.
  destruct (default _ (req_framework body)) as [| | |fw| |]; try discriminate.
  injection Hfw as ->.
  split; [|split; [|split; reflexivity]].
  - intros Ht. by rewrite (invalid_override_spec _ _ Ht).
  - intros Hlim.
    assert (invalid_number (memory (limits_of g body))
            || invalid_number (cpuPeriod (limits_of g body))
            || invalid_number (cpuQuota (limits_of g body)) = true) as Hbad.
    { unfold limits_of. cbn [memory cpuPeriod cpuQuota].
      apply orb_true_iff in Hlim as [Hlim|Hlim];
        [apply orb_true_iff in Hlim as [Hlim|Hlim]|];
        rewrite (invalid_override_spec _ _ Hlim); by rewrite ?orb_true_r. }
    rewrite Hbad.
    destruct (invalid_number (override (req_timeout body) _));
      [eexists; split; [reflexivity|]; by intros config code [=]|].
    destruct (FRAMEWORKS (toLowerCase framework)) as [config|];
      [|eexists; split; [reflexivity|]; by intros config code _ [=]].
    destruct (valid_code (req_code body)) as [code|];
      [|eexists; split; [reflexivity|]; by intros config' code _ _ [=]].
    eexists; split; [reflexivity|]. done.
Qed.

(** *** The framework key *)

Lemma ascii_lower_is_ascii c : is_ascii (ascii_lower c) = true -> is_ascii c = true.
Proof.
  unfold is_ascii, ascii_lower.
  destruct ((65 <=? c) && (c <=? 90)) eqn:E; [|done].
  apply andb_true_iff in E as [_ E%N.leb_le]. intros _. apply N.ltb_lt. lia.
Qed.

Lemma toLowerCase_ascii s :
  forallb is_ascii (map ascii_lower s) = true -> toLowerCase s = map ascii_lower s.
Proof.
  intros Hs. unfold toLowerCase.
  assert (forallb is_ascii s = true) as ->; [|done].
  induction s as [|c s IH]; [done|]. cbn [map forallb] in *.
  apply andb_true_iff in Hs as [Hc Hs].
  by rewrite (ascii_lower_is_ascii _ Hc), IH.
Qed.

Lemma FRAMEWORKS_own key :
  key ∈ framework_keys ->
  exists config, FRAMEWORKS key = Some config
                 /\ config ∈ [angular_config; react_config; vue_config].
Proof.
  intros Hk. unfold framework_keys in Hk.
  repeat (apply elem_of_cons in Hk as [->|Hk]; [eexists; split; [reflexivity|elem_of_list]|]).
  by apply elem_of_nil in Hk.
Qed.

Lemma FRAMEWORKS_None key :
  key ∉ Object_prototype_names -> (FRAMEWORKS key = None <-> key ∉ framework_keys).
Proof.
  intros Hproto. unfold FRAMEWORKS, jsstring_eqb, framework_keys.
  assert (existsb (fun name => bool_decide (key = name)) Object_prototype_names = false) as ->.
  { apply not_true_is_false. intros (name & Hin & Heq%bool_decide_eq_true)%existsb_exists.
    subst. by apply Hproto, list_elem_of_In. }
  rewrite !not_elem_of_cons.
  repeat case_bool_decide;
    (split;
     [intros Hnone; try discriminate Hnone; repeat split; first [done | apply not_elem_of_nil]
     |intros (Ha & Hr & Hv & _); done]).
Qed.

Lemma rejection_texts_differ framework :
  invalid_timeout_text <> unsupported_text framework
  /\ invalid_code_text <> unsupported_text framework
  /\ invalid_limits_text <> unsupported_text framework.
Proof. repeat split; discriminate. Qed.

(** C10, as the code has it. A [framework] string whose ASCII lower case is
    [angular], [react] or [vue] resolves to that profile, and the request is
    never answered with the unsupported-framework rejection. For a string
    whose lower case is not the name of a member of [Object.prototype], the
    answer is that rejection exactly when the timeout is valid and the lower
    case is none of the three keys: the timeout is checked first. *)
Theorem framework_lookup_case_insensitive (g : Globals) (env : Env) (body : Request)
    (framework : jsstring) :
  req_framework body = Some (JString framework) ->
  (map ascii_lower framework ∈ framework_keys ->
     toLowerCase framework = map ascii_lower framework
     /\ (exists config, FRAMEWORKS (toLowerCase framework) = Some config
                        /\ config ∈ [angular_config; react_config; vue_config])
     /\ (BAD_REQUEST, Failure (unsupported_text framework) None)
        ∉ responses (trace g env body))
  /\ (toLowerCase framework ∉ Object_prototype_names ->
       (responses (trace g env body)
        = [(BAD_REQUEST, Failure (unsupported_text framework) None)]
        <-> invalid_number (override (req_timeout body) (DEFAULT_COMPILE_TIMEOUT_MS g)) = false
            /\ toLowerCase framework ∉ framework_keys)).
Proof.
  intros Hfw.
  destruct (rejection_texts_differ framework) as (Htimeout & Hcode & Hlimits).
  unfold trace. rewrite run_validation. unfold validation. rewrite Hfw.
  cbn [from_option id].
  split.
  - intros Hkey.
    assert (toLowerCase framework = map ascii_lower framework) as Hlow.
    { apply toLowerCase_ascii. unfold framework_keys in Hkey.
      repeat (apply elem_of_cons in Hkey as [->|Hkey]; [reflexivity|]).
      by apply elem_of_nil in Hkey. }
    split; [done|]. rewrite Hlow.
    destruct (FRAMEWORKS_own _ Hkey) as (config & Hconfig & Hin).
    split; [by exists config|]. rewrite Hconfig.
    repeat case_step; cbn [fst snd]; try apply compile_guarded_responses;
      observe; intros Hel; elem_of_inv Hel; congruence.
  - intros Hproto. rewrite <- (FRAMEWORKS_None _ Hproto).
    repeat case_step; cbn [fst snd];
      (split; [intros Hresp | intros [Hvalid Hnone]]); try done; try congruence.
    all: first
      [ exfalso; eapply compile_guarded_responses; rewrite Hresp; by left
      | cbv [responses omap list_omap response_of] in *; congruence ].
Qed.

End Controller.

(** ** The claims on examples *)

Lemma timeout_reported_as_build_failure_witness :
  responses (trace example_globals
               (example_env (example_container finished_archive) fires_during_wait)
               (example_body "react" (Some 1%Z) None))
  = [(BAD_REQUEST, Failure (lit "REACT Build Failed") (Some []))].
Proof.
  refine (proj1 (proj2 (timeout_reported_as_build_failure example_globals
            (example_env (example_container finished_archive) fires_during_wait)
            (example_body "react" (Some 1%Z) None)
            (lit "react") react_config react_source react_limits
            (example_container finished_archive) _ _ _ _))).
  - reflexivity.
  - reflexivity.
  - reflexivity.
  - left. reflexivity.
Defined.

(** C3 fails as stated: the response to a timeout is the response to a build
    that failed without output, so the error does not tell a timeout from a
    build failure; what [waitForCompletion] resolved with did tell them
    apart. *)
Lemma timeout_indistinguishable_from_build_failure :
  responses (trace example_globals
               (example_env (example_container finished_archive) fires_during_wait)
               (example_body "react" (Some 1%Z) None))
  = [(BAD_REQUEST, Failure (lit "REACT Build Failed") (Some []))]
  /\ responses (trace example_globals
                  (example_env silent_failure fires_after_completion)
                  (example_body "react" (Some 1%Z) None))
     = [(BAD_REQUEST, Failure (lit "REACT Build Failed") (Some []))]
  /\ result_error (completion_result 1 []) = Some (lit "Build Failed")
  /\ result_error timeout_result = Some (lit "Compilation timeout").
Proof. repeat split; reflexivity. Qed.

Lemma invalid_override_rejected_witness :
  framework_string (example_body "react" (Some (-1)%Z) (Some (-1)%Z)) = Some (lit "react")
  /\ invalid_override (req_timeout (example_body "react" (Some (-1)%Z) (Some (-1)%Z))) = true
  /\ run example_globals (example_env (example_container finished_archive) fires_after_completion)
       (example_body "react" (Some (-1)%Z) (Some (-1)%Z))
     = (Normal tt, [Respond BAD_REQUEST (Failure invalid_timeout_text None)]).
Proof.
  split; [reflexivity|]. split; [reflexivity|].
  refine (proj1 (invalid_override_rejected example_globals
            (example_env (example_container finished_archive) fires_after_completion)
            (example_body "react" (Some (-1)%Z) (Some (-1)%Z)) (lit "react") _) _);
    reflexivity.
Defined.

(** C4 fails as stated: with an invalid [memory] and an invalid [timeout],
    the rejection names the timeout and not the memory. *)
Lemma invalid_memory_not_named :
  invalid_override (req_memory (example_body "react" (Some (-1)%Z) (Some (-1)%Z))) = true
  /\ run example_globals (example_env (example_container finished_archive) fires_after_completion)
       (example_body "react" (Some (-1)%Z) (Some (-1)%Z))
     = (Normal tt, [Respond BAD_REQUEST (Failure invalid_timeout_text None)])
  /\ includes (lit "memory") invalid_timeout_text = false.
Proof. repeat split; reflexivity. Qed.

Lemma framework_lookup_case_insensitive_witness :
  map ascii_lower (lit "REACT") ∈ framework_keys
  /\ toLowerCase (lit "REACT") = lit "react"
  /\ FRAMEWORKS (toLowerCase (lit "REACT")) = Some react_config.
Proof.
  split; [unfold framework_keys; elem_of_list|]. split; [|reflexivity].
  refine (proj1 (proj1 (framework_lookup_case_insensitive example_globals
            (example_env (example_container finished_archive) fires_after_completion)
            (example_body "REACT" None None) (lit "REACT") _) _)).
  - reflexivity.
  - unfold framework_keys. elem_of_list.
Defined.

(** C10 fails as stated: an unknown framework with an invalid timeout is
    answered with the timeout rejection, not the unsupported-framework one. *)
Lemma unknown_framework_invalid_timeout :
  FRAMEWORKS (toLowerCase (lit "svelte")) = None
  /\ responses (trace example_globals
                  (example_env (example_container finished_archive) fires_after_completion)
                  (example_body "svelte" (Some 0%Z) None))
     = [(BAD_REQUEST, Failure invalid_timeout_text None)]
  /\ invalid_timeout_text <> unsupported_text (lit "svelte").
Proof. split; [reflexivity|]. split; [reflexivity|discriminate]. Qed.

(** A key of [Object.prototype] is not rejected either: the lookup finds
    the inherited member, and the engine is asked for a container without an
    image. *)
Example constructor_is_not_rejected :
  head (trace example_globals
          (example_env (example_container finished_archive) fires_after_completion)
          (example_body "constructor" None None))
  = Some (DockerCreateContainer
            (container_options (lit "00000000-0000-4000-8000-000000000000") react_source
               inherited_member (lit "constructor") react_limits))
  /\ Image (container_options (lit "00000000-0000-4000-8000-000000000000") react_source
              inherited_member (lit "constructor") react_limits) = None.
Proof. split; reflexivity. Qed.

(** C1 on the code: a build succeeds and the download of its archive
    breaks off.  The source stream emits [error], nothing listens for it, and
    the process exits on the uncaught exception: the trace ends there, with
    one container created, no removal and no response.  The [finally] block
    removes the container on every other path, as when the extractor emits
    the error. *)
Lemma source_error_skips_removal :
  trace example_globals
    (example_env (example_container aborted_archive) fires_after_completion)
    (example_body "react" None None)
  = [DockerCreateContainer
       (container_options (lit "00000000-0000-4000-8000-000000000000") react_source
          react_config (lit "react") react_limits);
     ContainerStart; ContainerWait; ContainerLogs;
     ContainerGetArchive (distPath react_config);
     UncaughtException connection_reset]
  /\ created_containers
       (example_env (example_container aborted_archive) fires_after_completion)
       (trace example_globals
          (example_env (example_container aborted_archive) fires_after_completion)
          (example_body "react" None None))
     = [example_container aborted_archive]
  /\ removals (trace example_globals
                 (example_env (example_container aborted_archive) fires_after_completion)
                 (example_body "react" None None)) = 0%nat
  /\ responses (trace example_globals
                  (example_env (example_container aborted_archive) fires_after_completion)
                  (example_body "react" None None)) = []
  /\ removals (trace example_globals
                 (example_env (example_container broken_archive) fires_after_completion)
                 (example_body "react" None None)) = 1%nat.
Proof. repeat split; reflexivity. Qed.

(** C6 on the code: an error event of the extractor rejects the promise that
    [extractCompiledFiles] returned, the handler answers 500 with its
    message; only a failure of [getArchive] itself gives the empty set and
    a success. *)
Lemma extract_stream_error_propagates :
  responses (trace example_globals
               (example_env (example_container broken_archive) fires_after_completion)
               (example_body "react" None None))
  = [(INTERNAL_SERVER_ERROR, Failure (lit "Unexpected end of data") None)]
  /\ responses (trace example_globals
                  (example_env (example_container (Throw stream_error)) fires_after_completion)
                  (example_body "react" None None))
     = [(OK, Success (lit "react") ∅ (of_Z 1234))].
Proof. split; reflexivity. Qed.

(** ** The configuration endpoints *)

Section ConfigProperties.
Context `{JsRuntime}.

Lemma accepted_invalid field : invalid_override field = true -> accepted field = None.
Proof. destruct field as [v|]; [|done]. cbn. by intros ->. Qed.

Lemma assign_spec field text store rest g :
  assign field text store rest g
  = if invalid_override field then (g, (BAD_REQUEST, ConfigError text))
    else rest (match accepted field with Some x => store x g | None => g end).
Proof.
  unfold assign, invalid_override, accepted, invalid_number.
  destruct field as [v|]; [|done]. by destruct (isNaN (Number v) || le_zero (Number v)).
Qed.

(** X1. [PUT /config] is not atomic: a field is stored exactly when it is
    present and valid and no field handled before it (in the order timeout,
    memory, cpuPeriod, cpuQuota) is invalid; every other stored value is
    left as it was, also when the request is then rejected. *)
Theorem put_config_stores (g : Globals) (body : ConfigBody) :
  let g' := fst (put_config g body) in
  DEFAULT_COMPILE_TIMEOUT_MS g'
  = default (DEFAULT_COMPILE_TIMEOUT_MS g) (accepted (put_timeout body))
  /\ MEMORY (DOCKER_LIMITS g')
     = (if invalid_override (put_timeout body) then MEMORY (DOCKER_LIMITS g)
        else default (MEMORY (DOCKER_LIMITS g)) (accepted (put_memory body)))
  /\ CPU_PERIOD (DOCKER_LIMITS g')
     = (if invalid_override (put_timeout body) || invalid_override (put_memory body)
        then CPU_PERIOD (DOCKER_LIMITS g)
        else default (CPU_PERIOD (DOCKER_LIMITS g)) (accepted (put_cpuPeriod body)))
  /\ CPU_QUOTA (DOCKER_LIMITS g')
     = (if invalid_override (put_timeout body) || invalid_override (put_memory body)
           || invalid_override (put_cpuPeriod body)
        then CPU_QUOTA (DOCKER_LIMITS g)
        else default (CPU_QUOTA (DOCKER_LIMITS g)) (accepted (put_cpuQuota body))).
Proof.
  intros g'. subst g'. unfold put_config. rewrite !assign_spec.
  destruct (invalid_override (put_timeout body)) eqn:Et;
    [rewrite (accepted_invalid _ Et); by repeat split|].
  destruct (invalid_override (put_memory body)) eqn:Em;
    [rewrite (accepted_invalid _ Em); destruct (accepted (put_timeout body));
     by repeat split|].
  destruct (invalid_override (put_cpuPeriod body)) eqn:Ep;
    [rewrite (accepted_invalid _ Ep);
     destruct (accepted (put_timeout body)), (accepted (put_memory body));
     by repeat split|].
  destruct (invalid_override (put_cpuQuota body)) eqn:Eq;
    [rewrite ?(accepted_invalid _ Eq)|];
    destruct (accepted (put_timeout body)), (accepted (put_memory body)),
      (accepted (put_cpuPeriod body)), (accepted (put_cpuQuota body));
    by repeat split.
Qed.

(** X2. [PUT /config] answers 400 with the text that names the first invalid
    field in the order timeout, memory, cpuPeriod, cpuQuota, and 200 when no
    field is invalid; the 200 response shows the values that are then
    stored, which are the ones a following [GET /config] shows. *)
Theorem put_config_response (g : Globals) (body : ConfigBody) :
  let g' := fst (put_config g body) in
  snd (put_config g body)
  = (if invalid_override (put_timeout body) then (BAD_REQUEST, ConfigError invalid_timeout_text)
     else if invalid_override (put_memory body) then (BAD_REQUEST, ConfigError invalid_memory_text)
     else if invalid_override (put_cpuPeriod body) then
       (BAD_REQUEST, ConfigError invalid_cpuPeriod_text)
     else if invalid_override (put_cpuQuota body) then
       (BAD_REQUEST, ConfigError invalid_cpuQuota_text)
     else (OK, ConfigUpdated (lit "Configuration updated") (DOCKER_LIMITS g')
                 (DEFAULT_COMPILE_TIMEOUT_MS g')))
  /\ (forall message limits timeout,
        snd (put_config g body) = (OK, ConfigUpdated message limits timeout) ->
        exists note, get_config g' = (OK, ConfigView limits timeout note)).
Proof.
  intros g'. subst g'. unfold put_config, get_config. rewrite !assign_spec.
  destruct (invalid_override (put_timeout body));
    [split; [done | by intros ? ? ? [=]]|].
  destruct (invalid_override (put_memory body));
    [split; [done | by intros ? ? ? [=]]|].
  destruct (invalid_override (put_cpuPeriod body));
    [split; [done | by intros ? ? ? [=]]|].
  destruct (invalid_override (put_cpuQuota body));
    [split; [done | by intros ? ? ? [=]]|].
  split; [done|]. intros ? ? ? [= _ <- <-]. by eexists.
Qed.

Lemma accepted_valid field x : accepted field = Some x -> invalid_number x = false.
Proof.
  destruct field as [v|]; [|done]. cbn.
  destruct (invalid_number (Number v)) eqn:E; [done|]. by intros [= <-].
Qed.

(** X3. [PUT /config] keeps the stored values positive: when the four
    stored values are numbers above zero before the request, they are so after
    it, whether the request is answered 200 or 400. *)
Theorem put_config_keeps_valid (g : Globals) (body : ConfigBody) :
  valid_globals g = true -> valid_globals (fst (put_config g body)) = true.
Proof.
  unfold valid_globals. rewrite !andb_true_iff, !negb_true_iff.
  intros [[[Ht Hm] Hp] Hq].
  unfold put_config. rewrite !assign_spec.
  repeat match goal with
         | |- context [if invalid_override ?f then _ else _] =>
             destruct (invalid_override f)
         end;
    cbn [fst];
    repeat match goal with
           | |- context [accepted ?f] =>
               let E := fresh "E" in
               destruct (accepted f) eqn:E; [apply accepted_valid in E|]
           end;
    done.
Qed.

End ConfigProperties.

Lemma put_config_keeps_valid_witness :
  valid_globals example_globals = true
  /\ valid_globals (fst (put_config example_globals (example_put (Some 5000%Z) (Some (-1)%Z))))
     = true
  /\ DEFAULT_COMPILE_TIMEOUT_MS
       (fst (put_config example_globals (example_put (Some 5000%Z) (Some (-1)%Z))))
     = of_Z 5000.
Proof.
  split; [reflexivity|]. split; [|reflexivity].
  apply (put_config_keeps_valid example_globals (example_put (Some 5000%Z) (Some (-1)%Z))).
  reflexivity.
Defined.

(** ** The handler, path by path *)

Section ControllerProperties.
Context `{JsRuntime}.

Lemma validation_Accepted g body framework config code resourceLimits :
  validation g body = Accepted framework config code resourceLimits ->
  framework_string body = Some framework
  /\ invalid_number (override (req_timeout body) (DEFAULT_COMPILE_TIMEOUT_MS g)) = false
  /\ FRAMEWORKS (toLowerCase framework) = Some config
  /\ valid_code (req_code body) = Some code
  /\ resourceLimits = limits_of g body
  /\ invalid_number (memory (limits_of g body)) = false
  /\ invalid_number (cpuPeriod (limits_of g body)) = false
  /\ invalid_number (cpuQuota (limits_of g body)) = false.
Proof.
  unfold validation, framework_string.
  repeat case_step; intros [= <- <- <- <-].
  match goal with
  | E : _ || _ || _ = false |- _ =>
      apply orb_false_iff in E as [E ?]; apply orb_false_iff in E as [? ?]
  end.
  by repeat split.
Qed.

Lemma compile_guarded_create env id code config fw rl opts :
  DockerCreateContainer opts
  ∈ events (snd (compile_guarded env id code config fw rl initial_state)) ->
  opts = container_options id code config fw rl.
Proof.
  run_handler; intros Hin.
  all: elem_of_inv Hin.
  all: by injection Hin.
Qed.

(** X4. Every container that the handler asks the engine for carries the
    limits of the request (the override when present, the stored default
    otherwise), each a number above zero, the image of the profile that the
    lower-cased framework resolves to, and the name
    [<framework>-compile-<id>]. *)
Theorem created_container_options (g : Globals) (env : Env) (body : Request)
    (opts : CreateOptions) :
  DockerCreateContainer opts ∈ trace g env body ->
  Memory opts = override (req_memory body) (MEMORY (DOCKER_LIMITS g))
  /\ CpuPeriod opts = override (req_cpuPeriod body) (CPU_PERIOD (DOCKER_LIMITS g))
  /\ CpuQuota opts = override (req_cpuQuota body) (CPU_QUOTA (DOCKER_LIMITS g))
  /\ invalid_number (Memory opts) = false
  /\ invalid_number (CpuPeriod opts) = false
  /\ invalid_number (CpuQuota opts) = false
  /\ exists framework config,
       framework_string body = Some framework
       /\ FRAMEWORKS (toLowerCase framework) = Some config
       /\ Image opts = image config
       /\ name opts = framework ++ lit "-compile-" ++ uuidv4 env.
Proof.
  unfold trace. rewrite run_validation.
  destruct (validation g body) as [|text|fw config code rl] eqn:Hv; cbn [fst snd].
  - by intros Hin%elem_of_nil.
  - intros Hin. elem_of_inv Hin.
  - intros ->%compile_guarded_create.
    apply validation_Accepted in Hv
      as (Hfw & _ & Hconfig & _ & -> & Hm & Hp & Hq).
    repeat split; try done. by exists fw, config.
Qed.

(** X5. When the stored values are numbers above zero, a request without
    overrides is never rejected for its timeout or its limits. *)
Theorem defaults_never_rejected (g : Globals) (env : Env) (body : Request) :
  valid_globals g = true ->
  no_overrides body = true ->
  ((BAD_REQUEST, Failure invalid_timeout_text None) ∉ responses (trace g env body))
  /\ ((BAD_REQUEST, Failure invalid_limits_text None) ∉ responses (trace g env body)).
Proof.
  unfold valid_globals, no_overrides.
  rewrite !andb_true_iff, !negb_true_iff.
  intros [[[Ht Hm] Hp] Hq] (Et & Em & Ep & Eq)%bool_decide_eq_true.
  unfold trace. rewrite run_validation. unfold validation, limits_of.
  rewrite Et, Em, Ep, Eq. cbn [override memory cpuPeriod cpuQuota].
  rewrite Ht, Hm, Hp, Hq. cbn [orb].
  repeat case_step; cbn [fst snd];
    (split; [try apply compile_guarded_responses | try apply compile_guarded_responses]).
  all: cbv [responses omap list_omap response_of]; intros Hin; elem_of_inv Hin.
Qed.

(** X6. A request for a framework without a profile, or without a
    non-empty string as code, is answered 400 before anything is asked of the
    engine: the trace is that one response. *)
Theorem rejected_before_engine (g : Globals) (env : Env) (body : Request)
    (framework : jsstring) :
  framework_string body = Some framework ->
  (FRAMEWORKS (toLowerCase framework) = None \/ valid_code (req_code body) = None) ->
  exists text,
    run g env body = (Normal tt, [Respond BAD_REQUEST (Failure text None)])
    /\ text ∈ [invalid_timeout_text; unsupported_text framework; invalid_code_text].
Proof.
  intros Hfw Hbad. unfold framework_string in Hfw.
  rewrite run_validation. unfold validation.
  destruct (default _ (req_framework body)) as [| | |fw| |]; try discriminate.
  injection Hfw as ->.
  destruct (invalid_number (override (req_timeout body) _));
    [eexists; split; [reflexivity | elem_of_list]|].
  destruct (FRAMEWORKS (toLowerCase framework)) as [config|];
    [|eexists; split; [reflexivity | elem_of_list]].
  destruct Hbad as [Hbad|Hbad]; [discriminate|]. rewrite Hbad.
  eexists; split; [reflexivity | elem_of_list].
Qed.

(** X7. A request whose framework is a string (or absent) is answered exactly
    once by a handler that completes normally, unless the source stream of
    the output archive emits an error: the process then exits on the uncaught
    exception, with the container created, no response and no removal.  For
    any other framework value [framework.toLowerCase()] throws a TypeError
    before any response. *)
Theorem answered_exactly_once (g : Globals) (env : Env) (body : Request) :
  match framework_string body with
  | Some _ =>
      (fst (run g env body) = Normal tt
       /\ length (responses (trace g env body)) = 1%nat
       /\ existsb is_uncaught (trace g env body) = false)
      \/ (exists c path tarStream e,
            created_containers env (trace g env body) = [c]
            /\ getArchive c path = Normal tarStream
            /\ stream_end tarStream = source_error e
            /\ fst (run g env body) = Throw e
            /\ last (trace g env body) = Some (UncaughtException e)
            /\ responses (trace g env body) = []
            /\ removals (trace g env body) = 0%nat)
  | None =>
      trace g env body = []
      /\ exists e, fst (run g env body) = Throw e /\ error_name e = TypeError
  end.
Proof.
  unfold trace. rewrite run_validation. unfold validation, framework_string.
  destruct (default _ (req_framework body)) as [| | |fw| |];
    try (split; [done | by eexists]).
  repeat case_step; cbn [fst snd]; try (by left).
  match goal with
  | |- context [compile_guarded ?e ?i ?c ?cfg ?f ?r _] =>
      pose proof (compile_guarded_cleanup e i c cfg f r) as Halive;
      pose proof (compile_guarded_exited e i c cfg f r) as Hexit;
      cbn zeta in Halive, Hexit; unfold exited in Halive, Hexit;
      destruct (existsb is_uncaught (events (snd (compile_guarded e i c cfg f r initial_state))))
        eqn:Hx
  end.
  - right. destruct Hexit as (c & ts & e & _ & Ha & He & Hr & Hl & Hc & Hrm & Hrs); [done|].
    by eexists c, _, ts, e.
  - left. by destruct Halive as (Hr & _ & Hresp & _).
Qed.

End ControllerProperties.

Section PathProperties.
Context `{JsRuntime}.

(** X8. The promise of [waitForCompletion] never rejects.  It resolves with
    [success: true] exactly when the completion path wins the race, the
    container exited with status 0, its logs were read and demultiplexed
    without an error and the text holds [COMPILATION_COMPLETE]; under these
    conditions the result is [success: true] with that text as logs and no
    error. *)
Theorem waitForCompletion_success (c : Container) (t : Timer) (s : HandlerState) :
  exists r,
    fst (waitForCompletion c t s) = Normal r
    /\ container (snd (waitForCompletion c t s)) = container s
    /\ (result_success r = true
        <-> t = fires_after_completion
            /\ exists logsBuffer cleanLogs,
                 wait c = Normal 0%Z /\ logs c = Normal logsBuffer
                 /\ demux logsBuffer = Some (Normal cleanLogs)
                 /\ includes (lit "COMPILATION_COMPLETE") cleanLogs = true)
    /\ (forall logsBuffer cleanLogs,
          t = fires_after_completion ->
          wait c = Normal 0%Z ->
          logs c = Normal logsBuffer ->
          demux logsBuffer = Some (Normal cleanLogs) ->
          includes (lit "COMPILATION_COMPLETE") cleanLogs = true ->
          r = {| result_success := true; result_error := None;
                 result_logs := cleanLogs |}).
Proof.
  exec.
  destruct t; exec.
  1: { eexists. split; [done|]. split; [done|].
       split; [split; [done | by intros [? _]] | done]. }
  1: { destruct (wait c) as [st|e]; exec;
         (eexists; split; [done|]; split; [done|];
          split; [split; [done | by intros [? _]] | done]). }
  destruct (wait c) as [st|e]; exec.
  2: { eexists. split; [done|]. split; [done|].
       split; [split; [done | by intros (_ & ? & ? & ? & _)] | done]. }
  destruct (logs c) as [buf|e]; exec.
  2: { eexists. split; [done|]. split; [done|].
       split; [split; [done | by intros (_ & ? & ? & _ & ? & _)] | done]. }
  eexists. split; [done|]. split; [done|].
  unfold completion_result.
  pose proof (demux_result_total buf) as Hd.
  destruct (demux_result buf) as [text|e]; cbn [result_success result_logs].
  2: { split; [split; [done|] | intros ? ? _ _ [= <-] Hd' _; congruence].
       intros (_ & ? & ? & _ & [= <-] & Hd' & _). congruence. }
  destruct (Z.eqb_spec st 0) as [->|Hst]; cbn [andb].
  - destruct (includes (lit "COMPILATION_COMPLETE") text) eqn:Hi;
      cbn [result_success result_logs].
    + split.
      * split; [|done]. intros _. split; [done|]. by exists buf, text.
      * intros ? ? _ _ [= <-] Hd' _. congruence.
    + split.
      * split; [done|]. intros (_ & ? & ? & _ & [= <-] & Hd' & Hi'). congruence.
      * intros ? ? _ _ [= <-] Hd' Hi'. congruence.
  - cbn [result_success]. split.
    + split; [done|]. intros (_ & ? & ? & [= ?] & _). done.
    + intros ? ? _ [= ?]. done.
Qed.

(** The guarded part when the container ran to its end and the logs were
    read. *)
Lemma compile_guarded_completed env id code config fw rl c st buf :
  createContainer env (container_options id code config fw rl) = Normal c ->
  start c = Normal tt ->
  timer env = fires_after_completion ->
  wait c = Normal st ->
  logs c = Normal buf ->
  let r := completion_result st buf in
  responses (events (snd (compile_guarded env id code config fw rl initial_state)))
  = if result_success r then
      match getArchive c (distPath config) with
      | Throw _ => [(OK, Success fw ∅ (elapsed env))]
      | Normal ts =>
          match stream_end ts with
          | finish => [(OK, Success fw (collect (entries ts)) (elapsed env))]
          | error_event e => [(INTERNAL_SERVER_ERROR, Failure (message e) None)]
          | source_error _ => []
          end
      end
    else [(BAD_REQUEST, Failure (build_failed_text fw) (Some (result_logs r)))].
Proof.
  intros Hc Hs Ht Hw Hl r. subst r.
  exec. rewrite Hc. exec. rewrite Hs. exec. rewrite Ht. exec. rewrite Hw. exec.
  rewrite ?Ht, Hl. exec.
  destruct (result_success (completion_result st buf)); exec.
  - destruct (getArchive c (distPath config)) as [ts|e]; exec;
      [destruct (stream_end ts); exec|]; destruct (remove c); reflexivity.
  - destruct (remove c); reflexivity.
Qed.

(** X9. A build that ends with a non-zero status, or without
    [COMPILATION_COMPLETE] in its logs, is answered 400 with the text
    [<FRAMEWORK> Build Failed] and the whole demultiplexed transcript as logs. *)
Theorem build_failure_returns_transcript (g : Globals) (env : Env) (body : Request)
    (framework : jsstring) (config : FrameworkConfig) (code : jsstring)
    (resourceLimits : ResourceLimits) (c : Container) (StatusCode : Z)
    (logsBuffer : Buffer) (cleanLogs : jsstring) :
  validation g body = Accepted framework config code resourceLimits ->
  createContainer env (container_options (uuidv4 env) code config framework resourceLimits)
    = Normal c ->
  start c = Normal tt ->
  timer env = fires_after_completion ->
  wait c = Normal StatusCode ->
  logs c = Normal logsBuffer ->
  demux logsBuffer = Some (Normal cleanLogs) ->
  (StatusCode <> 0%Z \/ includes (lit "COMPILATION_COMPLETE") cleanLogs = false) ->
  responses (trace g env body)
  = [(BAD_REQUEST, Failure (toUpperCase framework ++ lit " Build Failed") (Some cleanLogs))].
Proof.
  intros Hv Hc Hs Ht Hw Hl Hd Hfail.
  unfold trace. rewrite run_validation, Hv. cbn [fst snd].
  rewrite (compile_guarded_completed _ _ _ _ _ _ c StatusCode logsBuffer) by done.
  unfold completion_result. rewrite (demux_result_spec _ _ Hd).
  destruct Hfail as [Hst|Hi].
  - apply Z.eqb_neq in Hst. by rewrite Hst.
  - by rewrite Hi, andb_false_r.
Qed.

(** X10. A build that ends with status 0 and [COMPILATION_COMPLETE] in its
    logs, and whose output archive is read to its end, is answered 200 with
    the framework as submitted, the collected files and the elapsed time. *)
Theorem successful_build_returns_files (g : Globals) (env : Env) (body : Request)
    (framework : jsstring) (config : FrameworkConfig) (code : jsstring)
    (resourceLimits : ResourceLimits) (c : Container)
    (logsBuffer : Buffer) (cleanLogs : jsstring) (es : list Entry) :
  validation g body = Accepted framework config code resourceLimits ->
  createContainer env (container_options (uuidv4 env) code config framework resourceLimits)
    = Normal c ->
  start c = Normal tt ->
  timer env = fires_after_completion ->
  wait c = Normal 0%Z ->
  logs c = Normal logsBuffer ->
  demux logsBuffer = Some (Normal cleanLogs) ->
  includes (lit "COMPILATION_COMPLETE") cleanLogs = true ->
  getArchive c (distPath config) = Normal {| entries := es; stream_end := finish |} ->
  responses (trace g env body) = [(OK, Success framework (collect es) (elapsed env))].
Proof.
  intros Hv Hc Hs Ht Hw Hl Hd Hi Ha.
  unfold trace. rewrite run_validation, Hv. cbn [fst snd].
  rewrite (compile_guarded_completed _ _ _ _ _ _ c 0%Z logsBuffer) by done.
  unfold completion_result. rewrite (demux_result_spec _ _ Hd), Hi. cbn.
  by rewrite Ha.
Qed.

(** X12. When [getArchive] itself throws after a successful build, the
    collector logs [Extraction Failed:] and returns the empty set: the
    request is answered 200 with no file. *)
Theorem getArchive_failure_gives_no_files (g : Globals) (env : Env) (body : Request)
    (framework : jsstring) (config : FrameworkConfig) (code : jsstring)
    (resourceLimits : ResourceLimits) (c : Container)
    (logsBuffer : Buffer) (cleanLogs : jsstring) (e : JsError) :
  validation g body = Accepted framework config code resourceLimits ->
  createContainer env (container_options (uuidv4 env) code config framework resourceLimits)
    = Normal c ->
  start c = Normal tt ->
  timer env = fires_after_completion ->
  wait c = Normal 0%Z ->
  logs c = Normal logsBuffer ->
  demux logsBuffer = Some (Normal cleanLogs) ->
  includes (lit "COMPILATION_COMPLETE") cleanLogs = true ->
  getArchive c (distPath config) = Throw e ->
  responses (trace g env body) = [(OK, Success framework ∅ (elapsed env))]
  /\ ConsoleError (lit "Extraction Failed:") (message e) ∈ trace g env body
  /\ (forall s, fst (extractCompiledFiles c (distPath config) s) = Normal ∅).
Proof.
  intros Hv Hc Hs Ht Hw Hl Hd Hi Ha.
  assert (completion_result 0 logsBuffer
          = {| result_success := true; result_error := None; result_logs := cleanLogs |})
    as Hres.
  { unfold completion_result. by rewrite (demux_result_spec _ _ Hd), Hi. }
  split; [|split].
  - unfold trace. rewrite run_validation, Hv. cbn [fst snd].
    rewrite (compile_guarded_completed _ _ _ _ _ _ c 0%Z logsBuffer) by done.
    by rewrite Hres, Ha.
  - unfold trace. rewrite run_validation, Hv. cbn [fst snd].
    exec. rewrite Hc. exec. rewrite Hs. exec. rewrite Ht. exec. rewrite Hw. exec.
    rewrite ?Ht, Hl. exec. rewrite Hres. exec. rewrite Ha. exec.
    destruct (remove c); exec; elem_of_list.
  - intros s. exec. by rewrite Ha.
Qed.

End PathProperties.

Section OutcomeProperties.
Context `{JsRuntime}.

Lemma completion_result_success st buf :
  result_success (completion_result st buf) = true ->
  st = 0%Z
  /\ exists text, demux buf = Some (Normal text)
                  /\ includes (lit "COMPILATION_COMPLETE") text = true.
Proof.
  unfold completion_result. pose proof (demux_result_total buf) as Hd.
  destruct (demux_result buf) as [text|e]; [|done].
  destruct (Z.eqb_spec st 0) as [->|_]; [|done].
  destruct (includes (lit "COMPILATION_COMPLETE") text) eqn:Hi; [|done].
  intros _. split; [done|]. by exists text.
Qed.

Lemma compile_guarded_success env id code config fw rl body' :
  (OK, body')
  ∈ responses (events (snd (compile_guarded env id code config fw rl initial_state))) ->
  exists c logsBuffer cleanLogs,
    createContainer env (container_options id code config fw rl) = Normal c
    /\ start c = Normal tt
    /\ timer env = fires_after_completion
    /\ wait c = Normal 0%Z
    /\ logs c = Normal logsBuffer
    /\ demux logsBuffer = Some (Normal cleanLogs)
    /\ includes (lit "COMPILATION_COMPLETE") cleanLogs = true.
Proof.
  run_handler; observe; cbv [OK BAD_REQUEST INTERNAL_SERVER_ERROR] in *; intros Hin.
  all: elem_of_inv Hin.
  all: match goal with
       | E : negb (result_success (completion_result _ _)) = false |- _ =>
           apply negb_false_iff, completion_result_success in E as (-> & text & Hd & Hi)
       end.
  all: repeat match goal with u : unit |- _ => destruct u end.
  all: by eexists _, _, _.
Qed.

(** X11. A request is answered 200 only if a container was created and
    started, the completion path won the race, the container exited with
    status 0 and its demultiplexed logs hold [COMPILATION_COMPLETE]: the exit
    status alone is not enough. *)
Theorem success_requires_marker (g : Globals) (env : Env) (body : Request)
    (payload : ResponseBody) :
  (OK, payload) ∈ responses (trace g env body) ->
  exists opts c logsBuffer cleanLogs,
    DockerCreateContainer opts ∈ trace g env body
    /\ createContainer env opts = Normal c
    /\ start c = Normal tt
    /\ timer env = fires_after_completion
    /\ wait c = Normal 0%Z
    /\ logs c = Normal logsBuffer
    /\ demux logsBuffer = Some (Normal cleanLogs)
    /\ includes (lit "COMPILATION_COMPLETE") cleanLogs = true.
Proof.
  unfold trace. rewrite run_validation.
  destruct (validation g body) as [|text|fw config code rl]; cbn [fst snd].
  - by intros Hin%elem_of_nil.
  - cbv [responses omap list_omap response_of OK BAD_REQUEST]. intros Hin. elem_of_inv Hin.
  - intros Hin. pose proof Hin as Hin'.
    apply compile_guarded_success in Hin' as (c & buf & text & Hc & Hrest).
    exists (container_options (uuidv4 env) code config fw rl), c, buf, text.
    split; [|done].
    clear Hin Hrest. exec. rewrite Hc. exec. repeat (case_step; exec); elem_of_list.
Qed.

(** X13. After validation, an error of the engine is answered 500 with its
    message. When [createContainer] throws there is no container: nothing is
    started, waited for or removed. When [start] throws, the container is
    removed once, and it is never waited for. *)
Theorem engine_errors_answered_500 (g : Globals) (env : Env) (body : Request)
    (framework : jsstring) (config : FrameworkConfig) (code : jsstring)
    (resourceLimits : ResourceLimits) :
  validation g body = Accepted framework config code resourceLimits ->
  let opts := container_options (uuidv4 env) code config framework resourceLimits in
  (forall e, createContainer env opts = Throw e ->
     trace g env body
     = [DockerCreateContainer opts;
        ConsoleError (lit "[" ++ uuidv4 env ++ lit "] Error:") (message e);
        Respond INTERNAL_SERVER_ERROR (Failure (message e) None)])
  /\ (forall c e, createContainer env opts = Normal c -> start c = Throw e ->
        responses (trace g env body) = [(INTERNAL_SERVER_ERROR, Failure (message e) None)]
        /\ removals (trace g env body) = 1%nat
        /\ ContainerWait ∉ trace g env body).
Proof.
  intros Hv opts. subst opts.
  unfold trace. rewrite run_validation, Hv. cbn [fst snd]. split.
  - intros e Hc. exec. rewrite Hc. exec. reflexivity.
  - intros c e Hc Hs. exec. rewrite Hc. exec. rewrite Hs. exec.
    destruct (remove c); exec; (split; [reflexivity|]; split; [reflexivity|]);
      intros Hin; elem_of_inv Hin.
Qed.

Lemma responds_before_removal_spec t :
  responds_before_removal t = true ->
  forall pre force post, t = pre ++ ContainerRemove force :: post -> responses post = [].
Proof.
  induction t as [|ev t IH]; intros Ht pre force post Heq.
  - by destruct pre.
  - cbn [responds_before_removal] in Ht.
    assert (forall l, forallb (fun ev' => negb (is_respond ev')) l = true -> responses l = [])
      as Hnone.
    { induction l as [|x l IHl]; [done|]. cbn [forallb].
      intros [Hx Hl]%andb_prop. unfold responses. cbn [omap list_omap].
      destruct x; try discriminate; cbn [response_of]; by apply IHl. }
    destruct pre as [|ev' pre]; cbn [app] in Heq; injection Heq as -> ->.
    + cbn [is_remove] in Ht. by apply Hnone.
    + destruct (is_remove ev').
      * apply Hnone.
        rewrite forallb_app in Ht. apply andb_prop in Ht as [_ Ht].
        cbn [forallb] in Ht. by apply andb_prop in Ht as [_ Ht].
      * by apply (IH Ht pre force post).
Qed.

Lemma compile_guarded_order env id code config fw rl :
  responds_before_removal (events (snd (compile_guarded env id code config fw rl initial_state)))
  = true.
Proof. run_handler; reflexivity. Qed.

(** X14. The response is sent before the container is removed: in the trace
    of every request, no response follows the removal, and exactly one
    precedes it. *)
Theorem response_precedes_removal (g : Globals) (env : Env) (body : Request)
    (pre post : list Event) (force : bool) :
  trace g env body = pre ++ ContainerRemove force :: post ->
  length (responses pre) = 1%nat /\ responses post = [].
Proof.
  unfold trace. rewrite run_validation.
  destruct (validation g body) as [|text|fw config code rl]; cbn [fst snd]; intros Heq.
  - by destruct pre.
  - destruct pre as [|? [|? ?]]; discriminate.
  - assert (responses post = []) as Hpost.
    { eapply responds_before_removal_spec; [apply compile_guarded_order | exact Heq]. }
    split; [|done].
    destruct (compile_guarded_cleanup env (uuidv4 env) code config fw rl)
      as (_ & _ & Hone & _).
    { apply (compile_guarded_removal _ _ _ _ _ _ force). cbn zeta. rewrite Heq.
      apply elem_of_app. right. left. }
    cbn zeta in Hone. rewrite Heq in Hone.
    unfold responses in *. rewrite omap_app in Hone. cbn [omap list_omap response_of] in Hone.
    fold (omap response_of post) in Hone.
    rewrite Hpost, app_nil_r in Hone. exact Hone.
Qed.

(** X21. The cleanup of the handler.  A request creates at most one
    container and only forces removals.  When no stream error goes uncaught,
    there are as many removals as containers created, the handler that
    created one completes normally after exactly one response, and a removal
    that throws is logged.  When one does, nothing was removed or answered.
    The responses are the same whatever the removal completes with. *)
Theorem container_removed_unless_exited (g : Globals) (env : Env) (body : Request) :
  let t := trace g env body in
  (length (created_containers env t) <= 1)%nat
  /\ (forall force, ContainerRemove force ∈ t -> force = true)
  /\ (existsb is_uncaught t = false ->
        removals t = length (created_containers env t)
        /\ (created_containers env t <> [] ->
              fst (run g env body) = Normal tt /\ length (responses t) = 1%nat)
        /\ (forall c e, created_containers env t = [c] -> remove c = Throw e ->
              ConsoleError (lit "Cleanup error:") (message e) ∈ t))
  /\ (existsb is_uncaught t = true ->
        removals t = 0%nat /\ responses t = []
        /\ exists c path tarStream e,
             created_containers env t = [c]
             /\ getArchive c path = Normal tarStream
             /\ stream_end tarStream = source_error e
             /\ last t = Some (UncaughtException e))
  /\ (forall r, responses (trace g (with_remove r env) body) = responses t).
Proof.
  intros t. subst t. unfold trace.
  assert (forall r, responses (run g (with_remove r env) body).2 = responses (run g env body).2)
    as Hremove.
  { intros r. rewrite validation_with_remove, run_validation.
    destruct (validation g body); try reflexivity.
    apply compile_guarded_with_remove. }
  rewrite run_validation in *.
  destruct (validation g body) as [|text|fw config code rl]; cbn [fst snd].
  - split; [cbn; lia|]. split; [by intros force Hin%elem_of_nil|].
    split; [|split; [done|intros r; apply (Hremove r)]].
    intros _. split; [done|]. split; [intros Hne; by destruct Hne | by intros c e [=]].
  - split; [cbn; lia|]. split; [intros force Hin; elem_of_inv Hin|].
    split; [|split; [done|intros r; apply (Hremove r)]].
    intros _. split; [done|]. split; [intros Hne; by destruct Hne | by intros c e [=]].
  - destruct (compile_guarded_bounds env (uuidv4 env) code config fw rl) as [Hle Hforce].
    pose proof (compile_guarded_cleanup env (uuidv4 env) code config fw rl) as Halive.
    pose proof (compile_guarded_exited env (uuidv4 env) code config fw rl) as Hexit.
    cbn zeta in Halive, Hexit. unfold exited in Halive, Hexit.
    split; [done|]. split; [done|].
    split; [|split; [|intros r; apply (Hremove r)]].
    + intros Hx. destruct (Halive Hx) as (Hr & Hcount & Hresp & Hlog). by repeat split.
    + intros Hx.
      destruct (Hexit Hx) as (c & ts & e & _ & Ha & He & _ & Hl & Hc & Hrm & Hrs).
      split; [done|]. split; [done|]. by eexists c, _, ts, e.
Qed.

End OutcomeProperties.

(** ** More on the collector, the demultiplexer and the normalizer *)

Lemma split_segments sep s seg : seg ∈ split sep s -> sep ∉ seg.
Proof.
  revert seg. induction s as [|c s IH]; intros seg; cbn [split].
  - intros ->%list_elem_of_singleton. apply not_elem_of_nil.
  - destruct (N.eqb_spec c sep) as [->|Hne].
    + intros [->|Hin]%elem_of_cons; [apply not_elem_of_nil | by apply IH].
    + destruct (split sep s) as [|seg0 segs] eqn:E.
      * intros ->%list_elem_of_singleton.
        apply not_elem_of_cons. split; [done | apply not_elem_of_nil].
      * intros [->|Hin]%elem_of_cons.
        -- apply not_elem_of_cons. split; [done|]. apply IH. left.
        -- apply IH. by right.
Qed.

Lemma pop_elem segs : segs <> [] -> pop segs ∈ segs.
Proof.
  induction segs as [|seg segs IH]; [done|]. intros _.
  destruct segs as [|seg' segs]; [left|].
  rewrite pop_cons by done. right. by apply IH.
Qed.

Lemma basename_no_slash name : 47 ∉ basename name.
Proof.
  apply (split_segments 47 name). apply pop_elem, split_nonempty.
Qed.

Section CollectorProperties.
Context `{JsRuntime}.

(** X15. The collector never keeps a directory: every key of the result is
    free of slashes and ends in one of the four extensions, whatever the
    archive holds. *)
Theorem collect_keys_flat (es : list Entry) (k : jsstring) :
  is_Some (collect es !! k) ->
  (47 ∉ k) /\ exists stem ext, ext ∈ output_extensions /\ k = stem ++ ext.
Proof.
  intros (e & _ & [_ Hext] & <-)%collect_is_Some.
  split; [apply basename_no_slash | exact Hext].
Qed.

(** X16. Collecting an archive in two parts composes: the files of the
    whole are those of the second part, completed by those of the first part
    whose names the second does not hold. *)
Theorem collect_app (es1 es2 : list Entry) :
  collect (es1 ++ es2) = collect es2 ∪ collect es1.
Proof.
  apply map_eq. intros k.
  rewrite lookup_union, !collect_lookup, filter_app, last_app.
  destruct (last (filter _ es2)) as [e2|]; cbn [fmap option_fmap option_map].
  - by destruct (content <$> last _).
  - by destruct (content <$> last _).
Qed.

End CollectorProperties.

Section DemuxProperties.
Context `{JsRuntime}.

(** X17. A last record whose header announces more bytes than the buffer
    still holds is decoded up to the end of the buffer, without an error:
    the loop then ends. *)
Theorem demux_truncated_payload (rs : list LogRecord) (tag' r1 r2 r3 : byte)
    (announced : N) (part : Buffer) :
  Forall fits_uint32 rs ->
  Buffer_length part <= announced < 4294967296 ->
  demux (encode rs ++ [tag'; r1; r2; r3] ++ uint32BE announced ++ part)
  = Some (Normal (decoded_records rs ++ utf8_toString part)).
Proof.
  intros Hfit [Hpart Hann].
  set (last_frame := [tag'; r1; r2; r3] ++ uint32BE announced ++ part).
  assert (length last_frame = (8 + length part)%nat) as Hlast by reflexivity.
  unfold demux, demux_fuel.
  pose proof (encode_length rs) as Hlen.
  replace (S (length (encode rs ++ last_frame)))
    with (length rs + S (S (length (encode rs ++ last_frame) - length rs - 1)))%nat
    by (rewrite length_app, Hlast; lia).
  pose proof (demux_loop_records rs
    (S (S (length (encode rs ++ last_frame) - length rs - 1))) [] last_frame [] Hfit) as E.
  etrans; [exact E|]. cbn [app]. clear E.
  cbn [demux_loop].
  assert ((Buffer_length (encode rs) <? Buffer_length (encode rs ++ last_frame)) = true) as ->.
  { apply N.ltb_lt. rewrite Buffer_length_app. unfold Buffer_length. rewrite Hlast. lia. }
  assert (readUInt32BE (encode rs ++ last_frame) (Buffer_length (encode rs) + 4)
          = Normal announced) as ->.
  { unfold readUInt32BE, Buffer_length at 1.
    replace (N.to_nat (N.of_nat (length (encode rs)) + 4))
      with (length (encode rs) + 4)%nat by lia.
    rewrite drop_app_add. subst last_frame. cbn [app drop uint32BE].
    rewrite !byte_of_N_to_N. f_equal. by apply uint32_digits. }
  assert (slice (encode rs ++ last_frame) (Buffer_length (encode rs) + 8)
            (Buffer_length (encode rs) + 8 + announced) = part) as ->.
  { unfold slice, Buffer_length.
    replace (N.to_nat (N.of_nat (length (encode rs)) + 8))
      with (length (encode rs) + 8)%nat by lia.
    rewrite drop_app_add. subst last_frame. cbn [app drop uint32BE].
    apply take_ge. unfold Buffer_length in Hpart. lia. }
  assert ((Buffer_length (encode rs) + 8 + announced
           <? Buffer_length (encode rs ++ last_frame)) = false) as ->.
  { apply N.ltb_ge. rewrite Buffer_length_app. unfold Buffer_length in *.
    rewrite Hlast. lia. }
  reflexivity.
Qed.

End DemuxProperties.

Lemma replace_all_from_deletes pat : forall s skip,
  replace_all_from pat [] skip s `sublist_of` s.
Proof.
  induction s as [|c s IH]; intros skip.
  - destruct skip; cbn [replace_all_from]; [|done].
    by destruct (match_here pat []) as [[|n]|].
  - destruct skip as [|k]; cbn [replace_all_from].
    + destruct (match_here pat (c :: s)) as [[|n]|]; cbn [app].
      * apply sublist_skip, IH.
      * apply sublist_cons, IH.
      * apply sublist_skip, IH.
    + apply sublist_cons, IH.
Qed.

Lemma includes_spec needle : forall s,
  includes needle s = true <-> exists pre post, s = pre ++ needle ++ post.
Proof.
  induction s as [|c s IH]; cbn [includes].
  - rewrite orb_false_r, starts_with_spec. split.
    + intros [post ->]. by exists [], post.
    + intros (pre & post & Heq). destruct pre; [by exists post|discriminate].
  - rewrite orb_true_iff, starts_with_spec, IH. split.
    + intros [[post ->]|(pre & post & ->)]; [by exists [], post | by exists (c :: pre), post].
    + intros (pre & post & Heq). destruct pre as [|c' pre].
      * left. by exists post.
      * right. injection Heq as -> ->. by exists pre, post.
Qed.

(** X18. The three strip rewrites of [prepareAngularCode] only delete: the
    text after them is the text before them with some characters left out,
    in the same order. *)
Theorem strips_only_delete (code : jsstring) :
  strip_styleUrl (strip_styleUrls (strip_templateUrl code)) `sublist_of` code
  /\ (length (strip_styleUrl (strip_styleUrls (strip_templateUrl code))) <= length code)%nat.
Proof.
  assert (strip_styleUrl (strip_styleUrls (strip_templateUrl code)) `sublist_of` code) as Hsub.
  { unfold strip_styleUrl, strip_styleUrls, strip_templateUrl, replace_all.
    etrans; [apply replace_all_from_deletes|].
    etrans; [apply replace_all_from_deletes|].
    apply replace_all_from_deletes. }
  split; [exact Hsub | by apply sublist_length].
Qed.

(** X19. The first rewrite of [prepareAngularCode].  A source that holds
    [@angular/common] somewhere is left as it is; any other source gets the
    import line in front of it, unchanged.  So the result always holds
    [@angular/common], and the rewrite is idempotent. *)
Theorem ensure_import_references (code : jsstring) :
  ((exists pre post, code = pre ++ lit "@angular/common" ++ post) ->
     ensure_import code = code)
  /\ (~ (exists pre post, code = pre ++ lit "@angular/common" ++ post) ->
        ensure_import code = common_import ++ code)
  /\ (exists pre post, ensure_import code = pre ++ lit "@angular/common" ++ post)
  /\ ensure_import (ensure_import code) = ensure_import code.
Proof.
  assert (includes (lit "@angular/common") (ensure_import code) = true) as Hinc.
  { unfold ensure_import.
    destruct (includes (lit "@angular/common") code) eqn:E; [exact E|].
    cbn [negb]. apply includes_spec.
    exists (lit "import { CommonModule } from '"), (lit "';" ++ newline ++ code).
    reflexivity. }
  split; [|split; [|split]].
  - intros Hin%includes_spec. unfold ensure_import. by rewrite Hin.
  - intros Hout. unfold ensure_import.
    destruct (includes (lit "@angular/common") code) eqn:E; [|done].
    destruct Hout. by apply includes_spec.
  - by apply includes_spec.
  - unfold ensure_import at 1. by rewrite Hinc.
Qed.

Section CaseProperties.
Context `{JsRuntime}.

(** X20. The profile is looked up under the lower-cased framework, but the
    normalization and the removal of conflicting files are chosen by the
    framework as submitted: a framework that only lower-cases to [angular]
    is built with the Angular profile from the source as it was sent, and
    nothing is removed first. *)
Theorem angular_case_mismatch (framework id userCode : jsstring)
    (resourceLimits : ResourceLimits) :
  toLowerCase framework = lit "angular" ->
  framework <> lit "angular" ->
  FRAMEWORKS (toLowerCase framework) = Some angular_config
  /\ finalCode framework userCode = userCode
  /\ cleanupCmd framework = []
  /\ Cmd (container_options id userCode angular_config framework resourceLimits)
     = [lit "/bin/sh"; lit "-c";
        script_head framework ++ base64 (Buffer_from userCode) ++ script_tail angular_config].
Proof.
  intros Hlow Hne.
  assert (finalCode framework userCode = userCode) as Hfinal.
  { unfold finalCode, jsstring_eqb. by rewrite bool_decide_eq_false_2. }
  split; [by rewrite Hlow|]. split; [exact Hfinal|]. split.
  - unfold cleanupCmd, jsstring_eqb.
    rewrite (bool_decide_eq_false_2 (framework = lit "angular")) by done.
    rewrite !bool_decide_eq_false_2; [done| |]; intros ->; by vm_compute in Hlow.
  - unfold container_options, script. cbn [Cmd]. by rewrite Hfinal.
Qed.

End CaseProperties.

(** ** The properties on examples *)

Lemma created_container_options_witness :
  DockerCreateContainer react_options
  ∈ trace example_globals working_env (example_body "react" None None)
  /\ Memory react_options = of_Z 2147483648
  /\ invalid_number (Memory react_options) = false.
Proof.
  assert (DockerCreateContainer react_options
          ∈ trace example_globals working_env (example_body "react" None None)) as Hin
    by (vm_compute; apply list_elem_of_here).
  split; [exact Hin|].
  destruct (created_container_options example_globals working_env
              (example_body "react" None None) react_options Hin)
    as (Hm & _ & _ & Hv & _).
  split; [exact Hm | exact Hv].
Defined.

Lemma defaults_never_rejected_witness :
  valid_globals example_globals = true
  /\ no_overrides (example_body "react" None None) = true
  /\ ((BAD_REQUEST, Failure invalid_timeout_text None)
      ∉ responses (trace example_globals working_env (example_body "react" None None))).
Proof.
  split; [reflexivity|]. split; [reflexivity|].
  refine (proj1 (defaults_never_rejected example_globals working_env
                   (example_body "react" None None) _ _)); reflexivity.
Defined.

Lemma rejected_before_engine_witness :
  exists text,
    run example_globals working_env (example_body "svelte" None None)
    = (Normal tt, [Respond BAD_REQUEST (Failure text None)])
    /\ text ∈ [invalid_timeout_text; unsupported_text (lit "svelte"); invalid_code_text].
Proof.
  refine (rejected_before_engine example_globals working_env
            (example_body "svelte" None None) (lit "svelte") _ _).
  - reflexivity.
  - left. reflexivity.
Defined.

Lemma build_failure_returns_transcript_witness :
  responses (trace example_globals (example_env failed_build fires_after_completion)
               (example_body "react" None None))
  = [(BAD_REQUEST, Failure (lit "REACT Build Failed") (Some (lit "error TS1005")))].
Proof.
  refine (build_failure_returns_transcript example_globals
            (example_env failed_build fires_after_completion)
            (example_body "react" None None)
            (lit "react") react_config react_source react_limits failed_build 2%Z
            (encode [stderr_record "error TS1005"]) (lit "error TS1005") _ _ _ _ _ _ _ _);
    try reflexivity.
  left. discriminate.
Defined.

Lemma successful_build_returns_files_witness :
  responses (trace example_globals working_env (example_body "react" None None))
  = [(OK, Success (lit "react") (collect example_archive) (of_Z 1234))].
Proof.
  refine (successful_build_returns_files example_globals working_env
            (example_body "react" None None)
            (lit "react") react_config react_source react_limits
            (example_container finished_archive)
            (encode [stdout_record "COMPILATION_COMPLETE"]) (lit "COMPILATION_COMPLETE")
            example_archive _ _ _ _ _ _ _ _ _);
    reflexivity.
Defined.

Lemma success_requires_marker_witness :
  exists opts c logsBuffer cleanLogs,
    DockerCreateContainer opts
    ∈ trace example_globals working_env (example_body "react" None None)
    /\ createContainer working_env opts = Normal c
    /\ start c = Normal tt
    /\ timer working_env = fires_after_completion
    /\ wait c = Normal 0%Z
    /\ logs c = Normal logsBuffer
    /\ demux logsBuffer = Some (Normal cleanLogs)
    /\ includes (lit "COMPILATION_COMPLETE") cleanLogs = true.
Proof.
  refine (success_requires_marker example_globals working_env
            (example_body "react" None None)
            (Success (lit "react") (collect example_archive) (of_Z 1234)) _).
  vm_compute. apply list_elem_of_here.
Defined.

Lemma getArchive_failure_gives_no_files_witness :
  responses (trace example_globals
               (example_env (example_container (Throw stream_error)) fires_after_completion)
               (example_body "react" None None))
  = [(OK, Success (lit "react") ∅ (of_Z 1234))].
Proof.
  refine (proj1 (getArchive_failure_gives_no_files example_globals
            (example_env (example_container (Throw stream_error)) fires_after_completion)
            (example_body "react" None None)
            (lit "react") react_config react_source react_limits
            (example_container (Throw stream_error))
            (encode [stdout_record "COMPILATION_COMPLETE"]) (lit "COMPILATION_COMPLETE")
            stream_error _ _ _ _ _ _ _ _ _));
    reflexivity.
Defined.

Lemma engine_errors_answered_500_witness :
  trace example_globals (failing_env stream_error) (example_body "react" None None)
  = [DockerCreateContainer react_options;
     ConsoleError (lit "[00000000-0000-4000-8000-000000000000] Error:")
       (lit "Unexpected end of data");
     Respond INTERNAL_SERVER_ERROR (Failure (lit "Unexpected end of data") None)]
  /\ removals (trace example_globals
                 (example_env (unstartable stream_error) fires_after_completion)
                 (example_body "react" None None)) = 1%nat.
Proof.
  split.
  - refine (proj1 (engine_errors_answered_500 example_globals (failing_env stream_error)
                     (example_body "react" None None)
                     (lit "react") react_config react_source react_limits _)
              stream_error _); reflexivity.
  - refine (proj1 (proj2 (proj2 (engine_errors_answered_500 example_globals
                     (example_env (unstartable stream_error) fires_after_completion)
                     (example_body "react" None None)
                     (lit "react") react_config react_source react_limits _)
              (unstartable stream_error) stream_error _ _))); reflexivity.
Defined.

Lemma response_precedes_removal_witness :
  length (responses
            [DockerCreateContainer react_options; ContainerStart; ContainerWait;
             ContainerLogs; ContainerGetArchive (distPath react_config);
             Respond OK (Success (lit "react") (collect example_archive) (of_Z 1234))])
  = 1%nat.
Proof.
  refine (proj1 (response_precedes_removal example_globals working_env
            (example_body "react" None None)
            [DockerCreateContainer react_options; ContainerStart; ContainerWait;
             ContainerLogs; ContainerGetArchive (distPath react_config);
             Respond OK (Success (lit "react") (collect example_archive) (of_Z 1234))]
            [] true _)).
  reflexivity.
Defined.

Lemma collect_keys_flat_witness :
  (47 ∉ lit "c.html")
  /\ exists stem ext, ext ∈ output_extensions /\ lit "c.html" = stem ++ ext.
Proof.
  refine (collect_keys_flat example_archive (lit "c.html") _).
  exists (lit "page"). reflexivity.
Defined.

Lemma demux_truncated_payload_witness :
  demux (encode [stdout_record "hi"] ++ [x01; x00; x00; x00] ++ uint32BE 10 ++ ascii_bytes "abc")
  = Some (Normal (lit "hiabc")).
Proof.
  refine (demux_truncated_payload [stdout_record "hi"] x01 x00 x00 x00 10 (ascii_bytes "abc") _ _).
  - repeat constructor.
  - split; [by vm_compute | reflexivity].
Defined.

Lemma angular_case_mismatch_witness :
  FRAMEWORKS (toLowerCase (lit "Angular")) = Some angular_config
  /\ finalCode (lit "Angular") (lit "export class Foo {}") = lit "export class Foo {}"
  /\ finalCode (lit "angular") (lit "export class Foo {}")
     = common_import ++ lit "export class AppComponent {}".
Proof.
  destruct (angular_case_mismatch (lit "Angular") [] (lit "export class Foo {}") react_limits)
    as (Hconfig & Hfinal & _); [reflexivity | discriminate |].
  split; [exact Hconfig|]. split; [exact Hfinal | reflexivity].
Defined.
